(** * A model of the concurrent crawler of main.go

    The program is embedded shallowly.  Sequential helpers
    ([extractLinks], [scrapeURLFromWorklist]) are functions.  The
    goroutines of [main], [discoverURLs], the [crawl] closure and [worker]
    are program counters named after the source lines they stand at, and
    one scheduler step runs one goroutine up to its next line that touches
    shared state.  The mutex, the two channels, the WaitGroup and the
    atomic counters are fields of the shared state. *)

From Stdlib Require Import ZArith Lia.
From stdpp Require Import base numbers list strings gmap.

Local Open Scope Z_scope.

(** ** Go integers *)

(** [int] and [int64] are 64 bits wide on the platforms the crawler is
    built for; arithmetic wraps around. *)
Definition max_int : Z := 2 ^ 63 - 1.
Definition min_int : Z := - 2 ^ 63.

Definition wrap64 (z : Z) : Z := (z + 2 ^ 63) mod 2 ^ 64 - 2 ^ 63.

Definition int_range (z : Z) : Prop := min_int <= z <= max_int.

(** ** Outcome of a Go call that may panic *)

Inductive go_result (A : Type) : Type :=
| Return (a : A)
| Panic.
Arguments Return {A} a.
Arguments Panic {A}.

(** ** The net/url operations used by [extractLinks]

    The library is not part of the repository, so it is an interface.
    [url_Parse] is [url.Parse]: [None] stands for its [(nil, err)] result.
    The [Parse] method of a URL pointer parses the reference and
    calls [ResolveReference], whose first statement that reads the
    receiver is [url.Scheme = u.Scheme], executed exactly when the
    reference has an empty scheme; a reference with a scheme is returned
    without touching the receiver.  [url_resolve_absolute] and
    [url_resolve_relative] are these two branches. *)
Class NetURL := {
  URL : Type;
  url_Parse : string → option URL;
  url_Scheme : URL → string;
  url_resolve_absolute : URL → URL;
  url_resolve_relative : URL → URL → URL;
  url_String : URL → string
}.

(** ** HTML tokens, as the tokenizer of golang.org/x/net/html hands them out *)

Inductive TokenType :=
| ErrorToken | TextToken | StartTagToken | EndTagToken
| SelfClosingTagToken | CommentToken | DoctypeToken.

Global Instance TokenType_eq_dec : EqDecision TokenType.
Proof. solve_decision. Defined.

Record Attribute := { Key : string; Val : string }.

Record Token := { Type_ : TokenType; Data : string; Attr : list Attribute }.

(** A response body is the sequence of tokens the tokenizer produces for
    it; when the sequence is exhausted [Next] returns [ErrorToken]
    (io.EOF).  A read error in the middle of the body is an [ErrorToken]
    inside the sequence. *)
Definition Body := list Token.

Section LinkExtractor.
Context {L : NetURL}.

(** [base.Parse(ref)] on a receiver that may be nil. *)
Definition URL_Parse (base : option URL) (ref : string) : go_result (option URL) :=
  match url_Parse ref with
  | None => Return None
  | Some r =>
      if bool_decide (url_Scheme r = EmptyString) then
        match base with
        | None => Panic
        | Some b => Return (Some (url_resolve_relative b r))
        end
      else Return (Some (url_resolve_absolute r))
  end.

(** Lines 290-297: the loop over the attributes of one start tag. *)
Fixpoint extractLinks_attrs (base : option URL) (attrs : list Attribute)
    (links : list string) : go_result (list string) :=
  match attrs with
  | [] => Return links
  | attr :: rest =>
      if bool_decide (Key attr = "href") then
        match URL_Parse base (Val attr) with
        | Panic => Panic
        | Return (Some link) =>
            extractLinks_attrs base rest (links ++ [url_String link])
        | Return None => extractLinks_attrs base rest links
        end
      else extractLinks_attrs base rest links
  end.

(** Lines 282-299: the tokenizer loop. *)
Fixpoint extractLinks_loop (base : option URL) (tokens : Body)
    (links : list string) : go_result (list string) :=
  match tokens with
  | [] => Return links
  | token :: rest =>
      if bool_decide (Type_ token = ErrorToken) then Return links
      else if bool_decide (Type_ token = StartTagToken)
              && bool_decide (Data token = "a") then
        match extractLinks_attrs base (Attr token) links with
        | Panic => Panic
        | Return links' => extractLinks_loop base rest links'
        end
      else extractLinks_loop base rest links
  end.

(** Lines 277-301. *)
Definition extractLinks (body : Body) (baseURL : string) : go_result (list string) :=
  let base := url_Parse baseURL in
  extractLinks_loop base body [].

End LinkExtractor.

(** ** Configuration and environment *)

(** The values [main] passes around (lines 361, 366, 374, 375). *)
Record Config := {
  seedURL : string;
  maxURLs : Z;
  numWorkers : Z
}.

Definition main_config : Config :=
  {| seedURL := "http://books.toscrape.com"; maxURLs := 100; numWorkers := 5 |}.

(** Line 361: [make(chan string, 100)]. *)
Definition worklist_cap : nat := 100.

(** What the network answers to a GET: an error of [client.Do], or a
    status code and a body. *)
Inductive Response :=
| RequestErr
| Resp (status : Z) (body : Body).

(** What happens to the three fallible calls of
    [scrapeURLFromWorklist] for one URL. *)
Record ScrapeEnv := {
  request_fails : bool;
  parse_fails : bool;
  insert_fails : bool
}.

(** The world outside the process.  A URL is fetched at most once by
    discovery and a Work Item is scraped once, so answers are functions of
    the URL.  [latency] is the time in milliseconds the server takes. *)
Record Web := {
  db_ok : bool;
  page : string → Response;
  latency : string → Z;
  worker_env : string → ScrapeEnv
}.

(** Lines 188-207.  [http.NewRequest] parses the URL with [url.Parse] and
    fails when that fails (lines 193-197); otherwise the request is sent
    and the client gives up after ten seconds (lines 189-191, 201-204).
    The result is the delay after which [makeRequest] returns, and what
    it returns. *)
Definition client_timeout : Z := 10000.

Definition makeRequest {L : NetURL} (web : Web) (url : string) : Z * Response :=
  match url_Parse url with
  | None => (0, RequestErr)
  | Some _ =>
      if client_timeout <? latency web url then (client_timeout, RequestErr)
      else (latency web url, page web url)
  end.

(** ** Statistics (lines 117-122) and the worker's scrape (lines 307-332) *)

Record Counters := {
  completedPages : Z;
  successPages : Z;
  failedPages : Z
}.

Inductive ScrapeError := ErrRequest | ErrParse | ErrInsert.

(** [atomic.Int64.Add(1)]. *)
Definition atomic_add1 (z : Z) : Z := wrap64 (z + 1).

Definition fail_page (c : Counters) : Counters :=
  {| completedPages := completedPages c;
     successPages := successPages c;
     failedPages := atomic_add1 (failedPages c) |}.

Definition succeed_page (c : Counters) : Counters :=
  {| completedPages := atomic_add1 (completedPages c);
     successPages := atomic_add1 (successPages c);
     failedPages := failedPages c |}.

Definition scrapeURLFromWorklist (env : ScrapeEnv) (c : Counters)
    : Counters * option ScrapeError :=
  if request_fails env then (fail_page c, Some ErrRequest)
  else if parse_fails env then (fail_page c, Some ErrParse)
  else if insert_fails env then (fail_page c, Some ErrInsert)
  else (succeed_page c, None).

(** The row [saveCrawlStats] writes (lines 167-178), without its clock
    fields. *)
Record CrawlStats := {
  TotalPages : Z;
  SuccessPages : Z;
  FailedPages : Z;
  StartURL : string
}.

(** ** Goroutines *)

(** Who called [crawl]: the anonymous goroutine of line 270, or the
    [go crawl(link)] of line 265.  The parent URL of a child is recorded
    for the statements about ordering only; no step reads it. *)
Inductive caller :=
| KSeed
| KChild (parent : string).

Inductive crawl_pc :=
| C240                                   (* mu.Lock() *)
| C241                                   (* if visited[url] || count >= maxURLs *)
| C242                                   (* mu.Unlock(); return *)
| C245                                   (* visited[url] = true *)
| C246                                   (* count++ *)
| C247                                   (* current := count *)
| C248 (current : Z)                     (* mu.Unlock() *)
| C250 (current : Z)                     (* makeRequest(url): request sent *)
| C250_wait (current : Z) (ready : Z)    (* blocked in client.Do *)
| C260 (current : Z) (body : Body)       (* worklist <- url *)
| C262 (current : Z) (body : Body)       (* links := extractLinks(resp.Body, url) *)
| C263 (current : Z) (links : list string). (* for _, link := range links *)

Inductive seed_pc :=
| S272                    (* time.Sleep(5 * time.Second) *)
| S272_wait (wake : Z)    (* sleeping *)
| S273                    (* done <- true: the value is offered *)
| S273_wait.              (* blocked until main receives *)

Inductive main_pc :=
| M352            (* initDB() *)
| M354            (* log.Fatal: the process has exited *)
| M368 (i : Z)    (* i < numWorkers *)
| M369 (i : Z)    (* wg.Add(1) *)
| M370 (i : Z)    (* go worker(...); i++ *)
| M377            (* go discoverURLs(...) *)
| M380            (* <-done *)
| M381            (* close(worklist) *)
| M382            (* wg.Wait() *)
| M386            (* saveCrawlStats(...) *)
| M389            (* log.Printf; return *)
| M391.           (* main has returned *)

Inductive worker_pc :=
| W336                  (* for url := range worklist *)
| W337 (url : string)   (* scrapeURLFromWorklist(url, ...); log on error *)
| W335.                 (* deferred wg.Done() *)

Inductive goroutine :=
| GMain (pc : main_pc)
| GDiscover                                   (* body of discoverURLs *)
| GCrawl (k : caller) (url : string) (pc : crawl_pc)
| GSeed (pc : seed_pc)                        (* line 270 after crawl(seedURL) *)
| GWorker (pc : worker_pc)
| GExit.

(** Where control goes when [crawl] returns. *)
Definition crawl_return (k : caller) : goroutine :=
  match k with
  | KSeed => GSeed S272
  | KChild _ => GExit
  end.

(** ** Shared state *)

Inductive done_state := DoneIdle | DoneOffered | DoneTaken.

Inductive proc_status := Running | Panicked | Exited | Fatal.

(** History of the run, newest event first.  It is written and never
    read by the program. *)
Inductive event :=
| EvAdmit (k : caller) (url : string)   (* line 246 executed for url *)
| EvFetch (url : string)                (* line 250 *)
| EvPush (url : string)                 (* line 260 *)
| EvPop (url : string)                  (* line 336 *)
| EvClose.                              (* line 381 *)

Global Instance caller_eq_dec : EqDecision caller.
Proof. solve_decision. Defined.
Global Instance event_eq_dec : EqDecision event.
Proof. solve_decision. Defined.

Record Shared := {
  visited : gmap string bool;            (* line 234 *)
  mu : bool;                             (* line 235, true when locked *)
  count : Z;                             (* line 236 *)
  worklist : list string;                (* line 361, oldest first *)
  closed : bool;                         (* close(worklist) happened *)
  done_ch : done_state;                  (* line 362, unbuffered *)
  wg : Z;                                (* line 365 *)
  stats : Counters;                      (* lines 118-120 *)
  logged : list (string * ScrapeError);  (* line 338 *)
  saved : option CrawlStats;             (* line 386 *)
  clock : Z;                             (* milliseconds *)
  status : proc_status;
  trace : list event
}.

Definition set_visited v (σ : Shared) : Shared :=
  {| visited := v; mu := mu σ; count := count σ; worklist := worklist σ;
     closed := closed σ; done_ch := done_ch σ; wg := wg σ; stats := stats σ;
     logged := logged σ; saved := saved σ; clock := clock σ;
     status := status σ; trace := trace σ |}.
Definition set_mu b (σ : Shared) : Shared :=
  {| visited := visited σ; mu := b; count := count σ; worklist := worklist σ;
     closed := closed σ; done_ch := done_ch σ; wg := wg σ; stats := stats σ;
     logged := logged σ; saved := saved σ; clock := clock σ;
     status := status σ; trace := trace σ |}.
Definition set_count c (σ : Shared) : Shared :=
  {| visited := visited σ; mu := mu σ; count := c; worklist := worklist σ;
     closed := closed σ; done_ch := done_ch σ; wg := wg σ; stats := stats σ;
     logged := logged σ; saved := saved σ; clock := clock σ;
     status := status σ; trace := trace σ |}.
Definition set_worklist w (σ : Shared) : Shared :=
  {| visited := visited σ; mu := mu σ; count := count σ; worklist := w;
     closed := closed σ; done_ch := done_ch σ; wg := wg σ; stats := stats σ;
     logged := logged σ; saved := saved σ; clock := clock σ;
     status := status σ; trace := trace σ |}.
Definition set_closed b (σ : Shared) : Shared :=
  {| visited := visited σ; mu := mu σ; count := count σ; worklist := worklist σ;
     closed := b; done_ch := done_ch σ; wg := wg σ; stats := stats σ;
     logged := logged σ; saved := saved σ; clock := clock σ;
     status := status σ; trace := trace σ |}.
Definition set_done d (σ : Shared) : Shared :=
  {| visited := visited σ; mu := mu σ; count := count σ; worklist := worklist σ;
     closed := closed σ; done_ch := d; wg := wg σ; stats := stats σ;
     logged := logged σ; saved := saved σ; clock := clock σ;
     status := status σ; trace := trace σ |}.
Definition set_wg n (σ : Shared) : Shared :=
  {| visited := visited σ; mu := mu σ; count := count σ; worklist := worklist σ;
     closed := closed σ; done_ch := done_ch σ; wg := n; stats := stats σ;
     logged := logged σ; saved := saved σ; clock := clock σ;
     status := status σ; trace := trace σ |}.
Definition set_stats c (σ : Shared) : Shared :=
  {| visited := visited σ; mu := mu σ; count := count σ; worklist := worklist σ;
     closed := closed σ; done_ch := done_ch σ; wg := wg σ; stats := c;
     logged := logged σ; saved := saved σ; clock := clock σ;
     status := status σ; trace := trace σ |}.
Definition set_logged l (σ : Shared) : Shared :=
  {| visited := visited σ; mu := mu σ; count := count σ; worklist := worklist σ;
     closed := closed σ; done_ch := done_ch σ; wg := wg σ; stats := stats σ;
     logged := l; saved := saved σ; clock := clock σ;
     status := status σ; trace := trace σ |}.
Definition set_saved r (σ : Shared) : Shared :=
  {| visited := visited σ; mu := mu σ; count := count σ; worklist := worklist σ;
     closed := closed σ; done_ch := done_ch σ; wg := wg σ; stats := stats σ;
     logged := logged σ; saved := r; clock := clock σ;
     status := status σ; trace := trace σ |}.
Definition set_clock t (σ : Shared) : Shared :=
  {| visited := visited σ; mu := mu σ; count := count σ; worklist := worklist σ;
     closed := closed σ; done_ch := done_ch σ; wg := wg σ; stats := stats σ;
     logged := logged σ; saved := saved σ; clock := t;
     status := status σ; trace := trace σ |}.
Definition set_status st (σ : Shared) : Shared :=
  {| visited := visited σ; mu := mu σ; count := count σ; worklist := worklist σ;
     closed := closed σ; done_ch := done_ch σ; wg := wg σ; stats := stats σ;
     logged := logged σ; saved := saved σ; clock := clock σ;
     status := st; trace := trace σ |}.
Definition record (e : event) (σ : Shared) : Shared :=
  {| visited := visited σ; mu := mu σ; count := count σ; worklist := worklist σ;
     closed := closed σ; done_ch := done_ch σ; wg := wg σ; stats := stats σ;
     logged := logged σ; saved := saved σ; clock := clock σ;
     status := status σ; trace := e :: trace σ |}.

(** [visited[url]]: a missing key reads as [false]. *)
Definition visited_at (u : string) (σ : Shared) : bool :=
  default false (visited σ !! u).

Record State := {
  sh : Shared;
  threads : list goroutine
}.

(** ** One step of one goroutine *)

Section Program.
Context {L : NetURL} (cfg : Config) (web : Web).

(** Line 272. *)
Definition sleep_ms : Z := 5000.

Definition panic (σ : Shared) (g : goroutine)
    : option (Shared * goroutine * list goroutine) :=
  Some (set_status Panicked σ, g, []).

Definition exec_main (σ : Shared) (pc : main_pc)
    : option (Shared * goroutine * list goroutine) :=
  match pc with
  | M352 =>
      if db_ok web then Some (σ, GMain (M368 0), [])
      else Some (set_status Fatal σ, GMain M354, [])
  | M354 => None
  | M368 i =>
      if i <? numWorkers cfg then Some (σ, GMain (M369 i), [])
      else Some (σ, GMain M377, [])
  | M369 i => Some (set_wg (wg σ + 1) σ, GMain (M370 i), [])
  | M370 i => Some (σ, GMain (M368 (wrap64 (i + 1))), [GWorker W336])
  | M377 => Some (σ, GMain M380, [GDiscover])
  | M380 =>
      match done_ch σ with
      | DoneOffered => Some (set_done DoneTaken σ, GMain M381, [])
      | _ => None
      end
  | M381 =>
      if closed σ then panic σ (GMain M381)
      else Some (record EvClose (set_closed true σ), GMain M382, [])
  | M382 => if wg σ =? 0 then Some (σ, GMain M386, []) else None
  | M386 =>
      let row := {| TotalPages := completedPages (stats σ);
                    SuccessPages := successPages (stats σ);
                    FailedPages := failedPages (stats σ);
                    StartURL := seedURL cfg |} in
      Some (set_saved (Some row) σ, GMain M389, [])
  | M389 => Some (set_status Exited σ, GMain M391, [])
  | M391 => None
  end.

Definition exec_crawl (σ : Shared) (k : caller) (url : string) (pc : crawl_pc)
    : option (Shared * goroutine * list goroutine) :=
  match pc with
  | C240 =>
      if mu σ then None else Some (set_mu true σ, GCrawl k url C241, [])
  | C241 =>
      if visited_at url σ || (count σ >=? maxURLs cfg)
      then Some (σ, GCrawl k url C242, [])
      else Some (σ, GCrawl k url C245, [])
  | C242 => Some (set_mu false σ, crawl_return k, [])
  | C245 =>
      Some (set_visited (<[url := true]> (visited σ)) σ, GCrawl k url C246, [])
  | C246 =>
      Some (record (EvAdmit k url) (set_count (wrap64 (count σ + 1)) σ),
            GCrawl k url C247, [])
  | C247 => Some (σ, GCrawl k url (C248 (count σ)), [])
  | C248 current => Some (set_mu false σ, GCrawl k url (C250 current), [])
  | C250 current =>
      Some (record (EvFetch url) σ,
            GCrawl k url (C250_wait current (clock σ + fst (makeRequest web url))),
            [])
  | C250_wait current ready =>
      if ready <=? clock σ then
        match snd (makeRequest web url) with
        | RequestErr => Some (σ, crawl_return k, [])
        | Resp code body =>
            if code =? 200 then Some (σ, GCrawl k url (C260 current body), [])
            else Some (σ, crawl_return k, [])
        end
      else None
  | C260 current body =>
      if closed σ then panic σ (GCrawl k url (C260 current body))
      else if (length (worklist σ) <? worklist_cap)%nat then
        Some (record (EvPush url) (set_worklist (worklist σ ++ [url]) σ),
              GCrawl k url (C262 current body), [])
      else None
  | C262 current body =>
      match extractLinks body url with
      | Panic => panic σ (GCrawl k url (C262 current body))
      | Return links => Some (σ, GCrawl k url (C263 current links), [])
      end
  | C263 current links =>
      match links with
      | [] => Some (σ, crawl_return k, [])
      | link :: rest =>
          if current <? maxURLs cfg
          then Some (σ, GCrawl k url (C263 current rest),
                     [GCrawl (KChild url) link C240])
          else Some (σ, GCrawl k url (C263 current rest), [])
      end
  end.

Definition exec_seed (σ : Shared) (pc : seed_pc)
    : option (Shared * goroutine * list goroutine) :=
  match pc with
  | S272 => Some (σ, GSeed (S272_wait (clock σ + sleep_ms)), [])
  | S272_wait wake =>
      if wake <=? clock σ then Some (σ, GSeed S273, []) else None
  | S273 =>
      match done_ch σ with
      | DoneIdle => Some (set_done DoneOffered σ, GSeed S273_wait, [])
      | _ => None
      end
  | S273_wait =>
      match done_ch σ with
      | DoneTaken => Some (σ, GExit, [])
      | _ => None
      end
  end.

Definition exec_worker (σ : Shared) (pc : worker_pc)
    : option (Shared * goroutine * list goroutine) :=
  match pc with
  | W336 =>
      match worklist σ with
      | url :: rest =>
          Some (record (EvPop url) (set_worklist rest σ), GWorker (W337 url), [])
      | [] => if closed σ then Some (σ, GWorker W335, []) else None
      end
  | W337 url =>
      match scrapeURLFromWorklist (worker_env web url) (stats σ) with
      | (c, Some err) =>
          Some (set_logged (logged σ ++ [(url, err)]) (set_stats c σ),
                GWorker W336, [])
      | (c, None) => Some (set_stats c σ, GWorker W336, [])
      end
  | W335 =>
      if wg σ - 1 <? 0 then panic σ (GWorker W335)
      else Some (set_wg (wg σ - 1) σ, GExit, [])
  end.

(** [None]: the goroutine is blocked or has finished. *)
Definition exec (σ : Shared) (g : goroutine)
    : option (Shared * goroutine * list goroutine) :=
  match g with
  | GMain pc => exec_main σ pc
  | GDiscover =>
      (* Lines 234-236 allocate the map, the mutex and the counter.
         discoverURLs is called once, so they are fields of the initial
         state.  Line 270 starts the goroutine that calls crawl(seedURL). *)
      Some (σ, GExit, [GCrawl KSeed (seedURL cfg) C240])
  | GCrawl k url pc => exec_crawl σ k url pc
  | GSeed pc => exec_seed σ pc
  | GWorker pc => exec_worker σ pc
  | GExit => None
  end.

(** ** The scheduler *)

Inductive action :=
| Run (i : nat)      (* goroutine number i takes its next step *)
| Tick (d : Z).      (* d milliseconds pass *)

Definition step (a : action) (s : State) : option State :=
  match status (sh s) with
  | Running =>
      match a with
      | Run i =>
          match threads s !! i with
          | Some g =>
              match exec (sh s) g with
              | Some (σ', g', spawned) =>
                  Some {| sh := σ'; threads := <[i := g']> (threads s) ++ spawned |}
              | None => None
              end
          | None => None
          end
      | Tick d =>
          if 0 <=? d
          then Some {| sh := set_clock (clock (sh s) + d) (sh s); threads := threads s |}
          else None
      end
  | _ => None
  end.

Fixpoint run (acts : list action) (s : State) : option State :=
  match acts with
  | [] => Some s
  | a :: rest =>
      match step a s with
      | Some s' => run rest s'
      | None => None
      end
  end.

Definition init_shared : Shared :=
  {| visited := ∅; mu := false; count := 0; worklist := []; closed := false;
     done_ch := DoneIdle; wg := 0;
     stats := {| completedPages := 0; successPages := 0; failedPages := 0 |};
     logged := []; saved := None; clock := 0; status := Running; trace := [] |}.

(** The process starts with the goroutine of [main] alone. *)
Definition init : State := {| sh := init_shared; threads := [GMain M352] |}.

End Program.

(** ** A small instance of the URL interface for the example runs

    It tracks what the control flow of [extractLinks] depends on: whether
    parsing fails and whether the scheme is empty.  The scheme is split
    off the way [getScheme] of net/url does it (letters, then digits and
    [+ - .] after the first character, up to the first colon; a leading
    colon is the error "missing protocol scheme"); the rest of the text is
    kept as it is.  A relative reference is resolved against the root of
    the host of its base.  The example runs use absolute links only. *)
Module SimpleURL.

Record t := { scheme : string; rest : string }.

Definition is_letter (c : Ascii.ascii) : bool :=
  let n := Ascii.N_of_ascii c in
  (((97 <=? n) && (n <=? 122)) || ((65 <=? n) && (n <=? 90)))%N.

Definition is_scheme_char (c : Ascii.ascii) : bool :=
  let n := Ascii.N_of_ascii c in
  (((48 <=? n) && (n <=? 57)) || (n =? 43) || (n =? 45) || (n =? 46))%N.

Definition is_colon (c : Ascii.ascii) : bool := (Ascii.N_of_ascii c =? 58)%N.

Fixpoint getScheme (raw : string) (first : bool) (seen : string) (s : string)
    : option (string * string) :=
  match s with
  | EmptyString => Some (EmptyString, raw)
  | String c s' =>
      if is_letter c then getScheme raw false (seen +:+ String c EmptyString) s'
      else if is_scheme_char c then
        if first then Some (EmptyString, raw)
        else getScheme raw false (seen +:+ String c EmptyString) s'
      else if is_colon c then
        if first then None else Some (seen, s')
      else Some (EmptyString, raw)
  end.

Definition parse (raw : string) : option t :=
  match getScheme raw true EmptyString raw with
  | Some (sc, r) => Some {| scheme := sc; rest := r |}
  | None => None
  end.

Definition to_string (u : t) : string :=
  if bool_decide (scheme u = EmptyString) then rest u
  else scheme u +:+ ":" +:+ rest u.

Definition is_slash (c : Ascii.ascii) : bool := (Ascii.N_of_ascii c =? 47)%N.

Fixpoint host_of (s : string) : string :=
  match s with
  | EmptyString => EmptyString
  | String c s' => if is_slash c then EmptyString else String c (host_of s')
  end.

(** [//host] of a text that starts with two slashes. *)
Definition authority (r : string) : string :=
  match r with
  | String c1 (String c2 s') =>
      if is_slash c1 && is_slash c2 then "//" +:+ host_of s' else EmptyString
  | _ => EmptyString
  end.

Definition resolve_relative (b r : t) : t :=
  let path :=
    match rest r with
    | String c _ => if is_slash c then rest r else "/" +:+ rest r
    | EmptyString => "/"
    end in
  {| scheme := scheme b; rest := authority (rest b) +:+ path |}.

Definition lib : NetURL :=
  {| URL := t;
     url_Parse := parse;
     url_Scheme := scheme;
     url_resolve_absolute := λ r, r;
     url_resolve_relative := resolve_relative;
     url_String := to_string |}.

End SimpleURL.

(** [<a href="target">] *)
Definition anchor (target : string) : Token :=
  {| Type_ := StartTagToken; Data := "a";
     Attr := [ {| Key := "href"; Val := target |} ] |}.

Definition healthy : ScrapeEnv :=
  {| request_fails := false; parse_fails := false; insert_fails := false |}.

Definition runs (i n : nat) : list action := replicate n (Run i).

(** ** Counting goroutines and events *)

(** [total w ts]: the sum of the weight [w] over the goroutines [ts]. *)
Definition total (w : goroutine → Z) (ts : list goroutine) : Z :=
  foldr (λ g acc, w g + acc) 0 ts.

(** [tally f tr]: the number of events of [tr] that satisfy [f]. *)
Definition tally (f : event → bool) (tr : list event) : Z :=
  foldr (λ e acc, Z.b2z (f e) + acc) 0 tr.

Definition url_weight (u v : string) : Z := if decide (u = v) then 1 else 0.

(** Inside the critical section of lines 240-248. *)
Definition w_cs (g : goroutine) : Z :=
  match g with
  | GCrawl _ _ (C241 | C242 | C245 | C246 | C247 | C248 _) => 1
  | _ => 0
  end.

(** Past the test of line 241, before the increment of line 246. *)
Definition w_pass (g : goroutine) : Z :=
  match g with
  | GCrawl _ _ (C245 | C246) => 1
  | _ => 0
  end.

Definition w_mark (u : string) (g : goroutine) : Z :=
  match g with
  | GCrawl _ v C245 => url_weight u v
  | _ => 0
  end.

Definition w_inc (u : string) (g : goroutine) : Z :=
  match g with
  | GCrawl _ v C246 => url_weight u v
  | _ => 0
  end.

(** Admitted, request not yet sent. *)
Definition w_prefetch (u : string) (g : goroutine) : Z :=
  match g with
  | GCrawl _ v (C247 | C248 _ | C250 _) => url_weight u v
  | _ => 0
  end.

(** Admitted, Work Item not yet pushed. *)
Definition w_own (u : string) (g : goroutine) : Z :=
  match g with
  | GCrawl _ v (C247 | C248 _ | C250 _ | C250_wait _ _ | C260 _ _) => url_weight u v
  | _ => 0
  end.

Definition w_own_all (g : goroutine) : Z :=
  match g with
  | GCrawl _ _ (C247 | C248 _ | C250 _ | C250_wait _ _ | C260 _ _) => 1
  | _ => 0
  end.

Definition w_main (g : goroutine) : Z :=
  match g with GMain _ => 1 | _ => 0 end.

(** [main] past [wg.Wait()]. *)
Definition w_post (g : goroutine) : Z :=
  match g with GMain (M386 | M389 | M391) => 1 | _ => 0 end.

(** [main] between [wg.Add(1)] and the [go worker] that follows. *)
Definition w_add (g : goroutine) : Z :=
  match g with GMain (M370 _) => 1 | _ => 0 end.

Definition w_live (g : goroutine) : Z :=
  match g with GWorker _ => 1 | _ => 0 end.

(** A worker that has popped an item and not yet counted it. *)
Definition w_hold (g : goroutine) : Z :=
  match g with GWorker (W337 _) => 1 | _ => 0 end.

Definition is_admit (e : event) : bool :=
  match e with EvAdmit _ _ => true | _ => false end.
Definition is_admit_of (u : string) (e : event) : bool :=
  match e with EvAdmit _ v => bool_decide (u = v) | _ => false end.
Definition is_fetch_of (u : string) (e : event) : bool :=
  match e with EvFetch v => bool_decide (u = v) | _ => false end.
Definition is_push (e : event) : bool :=
  match e with EvPush _ => true | _ => false end.
Definition is_push_of (u : string) (e : event) : bool :=
  match e with EvPush v => bool_decide (u = v) | _ => false end.
Definition is_pop (e : event) : bool :=
  match e with EvPop _ => true | _ => false end.

(** ** Invariants of the run *)

Section Invariants.
Context {L : NetURL} (cfg : Config) (web : Web).

(** The counting invariant.  Each line is an equation or inequality
    between the shared variables, the number of goroutines standing at
    given lines and the number of events of a kind in the history. *)
Record Inv (σ : Shared) (ts : list goroutine) : Prop := {
  inv_mu : total w_cs ts = Z.b2z (mu σ);
  inv_count_pos : 0 <= count σ;
  inv_cap : count σ + total w_pass ts <= Z.max 0 (maxURLs cfg);
  inv_admits : tally is_admit (trace σ) = count σ;
  inv_admit_of : ∀ u,
    tally (is_admit_of u) (trace σ) + total (w_inc u) ts = Z.b2z (visited_at u σ);
  inv_mark : ∀ u, total (w_mark u) ts + Z.b2z (visited_at u σ) <= 1;
  inv_fetch_of : ∀ u,
    total (w_prefetch u) ts + tally (is_fetch_of u) (trace σ)
    <= tally (is_admit_of u) (trace σ);
  inv_push_of : ∀ u,
    total (w_own u) ts + tally (is_push_of u) (trace σ)
    <= tally (is_admit_of u) (trace σ);
  inv_pushes : total w_own_all ts + tally is_push (trace σ) <= tally is_admit (trace σ);
  inv_queue : tally is_pop (trace σ) + Z.of_nat (length (worklist σ))
              = tally is_push (trace σ);
  inv_stats : successPages (stats σ) + failedPages (stats σ) + total w_hold ts
              = tally is_pop (trace σ);
  inv_completed : completedPages (stats σ) = successPages (stats σ);
  inv_success_pos : 0 <= successPages (stats σ);
  inv_failed_pos : 0 <= failedPages (stats σ);
  inv_wg : wg σ = total w_live ts + total w_add ts;
  inv_main : total w_main ts <= 1;
  inv_post : 1 <= total w_post ts → wg σ = 0;
  inv_saved : ∀ row, saved σ = Some row →
    1 <= total w_post ts ∧
    row = {| TotalPages := completedPages (stats σ);
             SuccessPages := successPages (stats σ);
             FailedPages := failedPages (stats σ);
             StartURL := seedURL cfg |}
}.

(** What must have happened before an event [e], given the earlier
    history [h]. *)
Definition ev_ok (e : event) (h : list event) : Prop :=
  match e with
  | EvAdmit (KChild p) _ => EvPush p ∈ h
  | EvFetch u => ∃ k, EvAdmit k u ∈ h
  | EvPush u => EvFetch u ∈ h ∧ ∃ body, snd (makeRequest web u) = Resp 200 body
  | _ => True
  end.

Fixpoint ordered (tr : list event) : Prop :=
  match tr with
  | [] => True
  | e :: h => ev_ok e h ∧ ordered h
  end.

(** What a goroutine standing at a line of [crawl] knows. *)
Definition local (σ : Shared) (g : goroutine) : Prop :=
  match g with
  | GCrawl k u pc =>
      match k with KChild p => EvPush p ∈ trace σ | KSeed => True end ∧
      match pc with
      | C246 => visited_at u σ = true
      | C247 | C248 _ | C250 _ =>
          visited_at u σ = true ∧ EvAdmit k u ∈ trace σ
      | C250_wait _ _ =>
          visited_at u σ = true ∧ EvAdmit k u ∈ trace σ ∧ EvFetch u ∈ trace σ
      | C260 _ body =>
          visited_at u σ = true ∧ EvAdmit k u ∈ trace σ ∧ EvFetch u ∈ trace σ ∧
          snd (makeRequest web u) = Resp 200 body
      | C262 _ _ | C263 _ _ => visited_at u σ = true ∧ EvPush u ∈ trace σ
      | _ => True
      end
  | _ => True
  end.

Record InvL (σ : Shared) (ts : list goroutine) : Prop := {
  invl_local : Forall (local σ) ts;
  invl_ordered : ordered (trace σ)
}.

(** A step only adds to the history and to the visited set. *)
Definition extends (σ σ' : Shared) : Prop :=
  (∃ es, trace σ' = es ++ trace σ) ∧
  (∀ u, visited_at u σ = true → visited_at u σ' = true).

Definition Good (s : State) : Prop :=
  Inv (sh s) (threads s) ∧ InvL (sh s) (threads s).

End Invariants.

(** ** Example sites and schedules *)

Definition books : string := "http://books.toscrape.com".
Definition slow_page : string := "http://books.toscrape.com/slow".
Definition page_a : string := "http://books.toscrape.com/a".
Definition page_b : string := "http://books.toscrape.com/b".

(** The seed links to one page that takes six seconds to answer. *)
Definition slow_web : Web :=
  {| db_ok := true;
     page := λ u,
       if bool_decide (u = books) then Resp 200 [anchor slow_page]
       else if bool_decide (u = slow_page) then Resp 200 []
       else RequestErr;
     latency := λ u, if bool_decide (u = slow_page) then 6000 else 100;
     worker_env := λ _, healthy |}.

(** A seed page without links whose scrape fails at the request. *)
Definition flaky_web : Web :=
  {| db_ok := true;
     page := λ u, if bool_decide (u = books) then Resp 200 [] else RequestErr;
     latency := λ _, 100;
     worker_env := λ _,
       {| request_fails := true; parse_fails := false; insert_fails := false |} |}.

(** The seed links to a page that answers 404 and to a healthy page. *)
Definition broken_link_web : Web :=
  {| db_ok := true;
     page := λ u,
       if bool_decide (u = books) then Resp 200 [anchor page_a; anchor page_b]
       else if bool_decide (u = page_a) then Resp 404 []
       else if bool_decide (u = page_b) then Resp 200 []
       else RequestErr;
     latency := λ _, 100;
     worker_env := λ _, healthy |}.

Definition two_pages : Config :=
  {| seedURL := books; maxURLs := 2; numWorkers := 5 |}.

(** [main] up to [<-done]: initDB, three steps per worker, the loop exit
    and [go discoverURLs]. *)
Definition main_startup (workers : nat) : list action :=
  runs 0 (3 * workers + 3).

(** [main_startup], then [discoverURLs], then the seed's [crawl] up to
    its request. *)
Definition startup (workers : nat) : list action :=
  main_startup workers ++ [Run (S workers)] ++ runs (workers + 2) 7.

(** The sleep of line 272 elapses, the handshake on [done], [close],
    the workers leave their loops, [main] saves the statistics and
    returns. *)
Definition shutdown (workers : nat) : list action :=
  [Tick 5000] ++ runs (workers + 2) 2 ++ runs 0 2 ++ [Run (workers + 2)%nat]
  ++ flat_map (λ w, runs w 2) (seq 1 workers) ++ runs 0 3.

(** Goroutine 7 is the seed's, 8 the slow page's, 1 the first worker. *)
Definition slow_sched_1 : list action :=
  startup 5 ++ [Tick 100] ++ runs 7 6 ++ runs 8 7 ++ runs 1 2
  ++ [Tick 5000] ++ runs 7 2 ++ runs 0 2 ++ [Run 7].

Definition slow_sched_2 : list action := [Tick 1000] ++ runs 8 2.

Definition flaky_sched : list action :=
  startup 5 ++ [Tick 100] ++ runs 7 5 ++ runs 1 2 ++ shutdown 5.

(** Goroutine 8 crawls [page_a], goroutine 9 [page_b]. *)
Definition broken_link_sched : list action :=
  startup 5 ++ [Tick 100] ++ runs 7 7 ++ runs 8 7 ++ runs 9 3 ++ [Tick 100]
  ++ [Run 8] ++ runs 1 2 ++ shutdown 5.

(** The part of [broken_link_sched] up to the arrival of the 404. *)
Definition broken_link_prefix : list action :=
  startup 5 ++ [Tick 100] ++ runs 7 7 ++ runs 8 7 ++ runs 9 3 ++ [Tick 100].

Definition slow_state : State :=
  Eval vm_compute in
    default init (run (L := SimpleURL.lib) main_config slow_web slow_sched_1 init).

Definition slow_final : State :=
  Eval vm_compute in
    default init (run (L := SimpleURL.lib) main_config slow_web slow_sched_2 slow_state).

Definition flaky_final : State :=
  Eval vm_compute in
    default init (run (L := SimpleURL.lib) main_config flaky_web flaky_sched init).

Definition broken_link_final : State :=
  Eval vm_compute in
    default init
      (run (L := SimpleURL.lib) two_pages broken_link_web broken_link_sched init).

Definition broken_link_state : State :=
  Eval vm_compute in
    default init
      (run (L := SimpleURL.lib) two_pages broken_link_web broken_link_prefix init).



(** The lines of [crawl] at which the request is on its way. *)
Definition fetching (pc : crawl_pc) : Prop :=
  match pc with
  | C250 _ | C250_wait _ _ => True
  | _ => False
  end.

(** A finished run with a cap of two: the seed and [page_a] take the two
    slots, [page_a] answers 404, and [page_b], linked from the seed and
    answering 200, is never admitted.  One Work Item is produced. *)
Definition lost_slot_example : Prop :=
  run (L := SimpleURL.lib) two_pages broken_link_web broken_link_sched init
  = Some broken_link_final ∧
  status (sh broken_link_final) = Exited ∧
  tally is_admit (trace (sh broken_link_final)) = maxURLs two_pages ∧
  tally is_push (trace (sh broken_link_final)) < maxURLs two_pages ∧
  snd (makeRequest (L := SimpleURL.lib) broken_link_web page_a) = Resp 404 [] ∧
  tally (is_admit_of page_a) (trace (sh broken_link_final)) = 1 ∧
  tally (is_push_of page_a) (trace (sh broken_link_final)) = 0 ∧
  extractLinks (L := SimpleURL.lib) [anchor page_a; anchor page_b] books
  = Return [page_a; page_b] ∧
  snd (makeRequest (L := SimpleURL.lib) broken_link_web books) = Resp 200 [anchor page_a; anchor page_b] ∧
  tally (is_push_of books) (trace (sh broken_link_final)) = 1 ∧
  snd (makeRequest (L := SimpleURL.lib) broken_link_web page_b) = Resp 200 [] ∧
  tally (is_admit_of page_b) (trace (sh broken_link_final)) = 0.

(** ** The hand-off from discovery to the workers *)

(** The URLs pushed so far, oldest first, and the URLs popped so far. *)
Definition pushed_urls (tr : list event) : list string :=
  foldr (λ e acc, match e with EvPush u => acc ++ [u] | _ => acc end) [] tr.

Definition popped_urls (tr : list event) : list string :=
  foldr (λ e acc, match e with EvPop u => acc ++ [u] | _ => acc end) [] tr.

Definition is_close (e : event) : bool :=
  match e with EvClose => true | _ => false end.

Definition is_pop_of (u : string) (e : event) : bool :=
  match e with EvPop v => bool_decide (u = v) | _ => false end.

(** [main] before it has executed [close(worklist)]. *)
Definition w_preclose (g : goroutine) : Z :=
  match g with
  | GMain (M352 | M368 _ | M369 _ | M370 _ | M377 | M380 | M381) => 1
  | _ => 0
  end.

(** [main] after [close(worklist)]. *)
Definition w_postclose (g : goroutine) : Z :=
  match g with GMain (M382 | M386 | M389 | M391) => 1 | _ => 0 end.

(** A worker inside its [range] loop. *)
Definition w_loop (g : goroutine) : Z :=
  match g with GWorker (W336 | W337 _) => 1 | _ => 0 end.

Section Flow.
Context (cfg : Config).

(** The number of workers [main] has started, read off its loop
    variable. *)
Definition w_started (g : goroutine) : Z :=
  match g with
  | GMain (M352 | M354) => 0
  | GMain (M368 i | M369 i | M370 i) => Z.max 0 i
  | GMain _ => Z.max 0 (numWorkers cfg)
  | _ => 0
  end.

(** The loop variable of lines 368-371 stays within its bounds. *)
Definition main_ok (g : goroutine) : Prop :=
  match g with
  | GMain (M368 i) => 0 <= i
  | GMain (M369 i | M370 i) => 0 <= i < numWorkers cfg
  | _ => True
  end.

(** What the clock shows at the lines that follow the sleep of line 272. *)
Definition timed (σ : Shared) (g : goroutine) : Prop :=
  match g with
  | GSeed (S272_wait wake) => sleep_ms <= wake
  | GSeed (S273 | S273_wait) => sleep_ms <= clock σ
  | GMain (M381 | M382 | M386 | M389 | M391) => sleep_ms <= clock σ
  | _ => True
  end.

Record Flow (σ : Shared) (ts : list goroutine) : Prop := {
  flow_fifo : pushed_urls (trace σ) = popped_urls (trace σ) ++ worklist σ;
  flow_cap : (length (worklist σ) <= worklist_cap)%nat;
  flow_close : tally is_close (trace σ) = Z.b2z (closed σ);
  flow_preclose : Z.b2z (closed σ) + total w_preclose ts <= 1;
  flow_postclose : total w_postclose ts <= Z.b2z (closed σ);
  flow_main_ok : Forall main_ok ts;
  flow_loop : worklist σ ≠ [] ∨ closed σ = false →
              total w_started ts <= total w_loop ts;
  flow_clock : 0 <= clock σ;
  flow_timed : Forall (timed σ) ts;
  flow_done : done_ch σ ≠ DoneIdle → sleep_ms <= clock σ;
  flow_closed_late : closed σ = true → sleep_ms <= clock σ;
  flow_saved_late : saved σ ≠ None → sleep_ms <= clock σ
}.

End Flow.

(** How often [u] stands in a list of URLs. *)
Definition occurs (u : string) (l : list string) : Z :=
  foldr (λ v acc, url_weight u v + acc) 0 l.

Definition zero_cap : Config :=
  {| seedURL := books; maxURLs := 0; numWorkers := 5 |}.

(** [main] starts up and the seed's [crawl] is turned away at line 241. *)
Definition zero_cap_sched : list action :=
  main_startup 5 ++ [Run 6] ++ runs 7 3.

Definition zero_cap_state : State :=
  Eval vm_compute in
    default init (run (L := SimpleURL.lib) zero_cap flaky_web zero_cap_sched init).

(** [slow_state] one second later, the slow page's goroutine standing at
    the send of line 260. *)
Definition slow_sched_send : list action := slow_sched_1 ++ [Tick 1000; Run 8].

Definition slow_state_send : State :=
  Eval vm_compute in
    default init (run (L := SimpleURL.lib) main_config slow_web slow_sched_send init).

(** The seed's goroutine of [broken_link_web] standing at line 262. *)
Definition broken_link_extract : list action :=
  startup 5 ++ [Tick 100] ++ runs 7 2.

Definition broken_link_extract_state : State :=
  Eval vm_compute in
    default init
      (run (L := SimpleURL.lib) two_pages broken_link_web broken_link_extract init).

(** The seed links to [page_a], which links to [page_b]; all answer 200. *)
Definition chain_web : Web :=
  {| db_ok := true;
     page := λ u,
       if bool_decide (u = books) then Resp 200 [anchor page_a]
       else if bool_decide (u = page_a) then Resp 200 [anchor page_b]
       else if bool_decide (u = page_b) then Resp 200 []
       else RequestErr;
     latency := λ _, 100;
     worker_env := λ _, healthy |}.

(** With a cap of two, [page_a] takes the last slot; its goroutine, number
    8, stands at the loop of line 263 with its one link. *)
Definition chain_sched : list action :=
  startup 5 ++ [Tick 100] ++ runs 7 5 ++ runs 8 7 ++ [Tick 100] ++ runs 8 3.

Definition chain_state : State :=
  Eval vm_compute in
    default init (run (L := SimpleURL.lib) two_pages chain_web chain_sched init).

(** ** More about the link extractor *)

Definition is_error (t : Token) : bool := bool_decide (Type_ t = ErrorToken).

(** The tokens line 289 lets through: start tags named [a]. *)
Definition is_anchor_start (t : Token) : bool :=
  bool_decide (Type_ t = StartTagToken) && bool_decide (Data t = "a").

(** The tokens [extractLinks] reacts to. *)
Definition relevant (t : Token) : bool := is_error t || is_anchor_start t.

(** Every href of the body is unparsable or carries a scheme. *)
Definition absolute_hrefs {L : NetURL} (body : Body) : Prop :=
  Forall (λ t, Forall (λ a,
    Key a = "href" →
    match url_Parse (Val a) with
    | Some r => url_Scheme r ≠ EmptyString
    | None => True
    end) (Attr t)) body.

(** [<a href="target"/>] *)
Definition self_closing_anchor (target : string) : Token :=
  {| Type_ := SelfClosingTagToken; Data := "a";
     Attr := [ {| Key := "href"; Val := target |} ] |}.

Definition text_token (s : string) : Token :=
  {| Type_ := TextToken; Data := s; Attr := [] |}.

Definition error_token : Token :=
  {| Type_ := ErrorToken; Data := EmptyString; Attr := [] |}.

(** ** The links of a document *)

(** What [extractLinks] is to return for a base that parsed, said on
    the document rather than on the loop: the hrefs of the start tags
    named [a] that come before the first read error, in document order;
    each href that parses, resolved against the base; an href that does
    not parse contributes nothing. *)
Section DocumentLinks.
Context {L : NetURL}.

(** The values of the [href] attributes of one tag. *)
Definition tag_hrefs (attrs : list Attribute) : list string :=
  Val <$> filter (λ a, Key a = "href") attrs.

Fixpoint href_values (body : Body) : list string :=
  match body with
  | [] => []
  | t :: rest =>
      if is_error t then []
      else if is_anchor_start t then tag_hrefs (Attr t) ++ href_values rest
      else href_values rest
  end.

(** A parsed reference against a base that is not nil: a reference
    without a scheme takes the base's, one with a scheme stands alone. *)
Definition resolve_reference (b r : URL) : URL :=
  if bool_decide (url_Scheme r = EmptyString) then url_resolve_relative b r
  else url_resolve_absolute r.

(** One link per href that parses, none for the others. *)
Definition resolved_links (b : URL) (hrefs : list string) : list string :=
  (λ r, url_String (resolve_reference b r)) <$> omap url_Parse hrefs.

End DocumentLinks.

(** ** The page parser (lines 52-111) *)

Module Parser.

(** Node types of golang.org/x/net/html. *)
Inductive NodeType :=
| ErrorNode | TextNode | DocumentNode | ElementNode
| CommentNode | DoctypeNode | RawNode.

#[local] Unset Elimination Schemes.

(** A parsed document: [children] lists the nodes reached from
    [FirstChild] through [NextSibling]. *)
Inductive Node :=
| MkNode (ntype : NodeType) (ndata : string) (nattr : list Attribute)
         (children : list Node).

#[local] Set Elimination Schemes.

(** Induction on a document, with the hypothesis for every child. *)
Fixpoint Node_nested_ind (P : Node → Prop)
    (H : ∀ ty d attrs cs, Forall P cs → P (MkNode ty d attrs cs))
    (n : Node) : P n :=
  match n with
  | MkNode ty d attrs cs =>
      H ty d attrs cs
        ((fix go (cs : list Node) : Forall P cs :=
            match cs with
            | [] => Forall_nil_2 P
            | c :: cs' => Forall_cons_2 P c cs' (Node_nested_ind P H c) (go cs')
            end) cs)
  end.

Definition node_type (n : Node) : NodeType := let 'MkNode t _ _ _ := n in t.
Definition node_data (n : Node) : string := let 'MkNode _ d _ _ := n in d.
Definition node_attr (n : Node) : list Attribute := let 'MkNode _ _ a _ := n in a.
Definition node_children (n : Node) : list Node := let 'MkNode _ _ _ c := n in c.

(** Lines 52-58. *)
Record SEOData := {
  URL : string;
  Title : string;
  H1 : string;
  MetaDescription : string;
  StatusCode : Z
}.

(** What [GetSEOData] reads of the response: the request URL as a string,
    the status code, and the outcome of [html.Parse] on the body, [None]
    standing for its error. *)
Record HTTPResponse := {
  RequestURL : string;
  RespStatus : Z;
  Parsed : option Node
}.

Inductive ParseError := HTMLParseError.

Definition set_Title (v : string) (d : SEOData) : SEOData :=
  {| URL := URL d; Title := v; H1 := H1 d;
     MetaDescription := MetaDescription d; StatusCode := StatusCode d |}.
Definition set_H1 (v : string) (d : SEOData) : SEOData :=
  {| URL := URL d; Title := Title d; H1 := v;
     MetaDescription := MetaDescription d; StatusCode := StatusCode d |}.
Definition set_MetaDescription (v : string) (d : SEOData) : SEOData :=
  {| URL := URL d; Title := Title d; H1 := H1 d;
     MetaDescription := v; StatusCode := StatusCode d |}.

(** Lines 90-98: the loop over the attributes of a [meta] element. *)
Fixpoint meta_attrs (attrs : list Attribute) (name content : string)
    : string * string :=
  match attrs with
  | [] => (name, content)
  | attr :: rest =>
      let name' := if bool_decide (Key attr = "name") then Val attr else name in
      let content' :=
        if bool_decide (Key attr = "content") then Val attr else content in
      meta_attrs rest name' content'
  end.

(** Lines 79-103: what [extract] does at one node before it descends. *)
Definition visit (n : Node) (data : SEOData) : SEOData :=
  match node_type n with
  | ElementNode =>
      if bool_decide (node_data n = "title") then
        match node_children n with
        | c :: _ => set_Title (node_data c) data
        | [] => data
        end
      else if bool_decide (node_data n = "h1") then
        match node_children n with
        | c :: _ =>
            if bool_decide (H1 data = EmptyString)
            then set_H1 (node_data c) data else data
        | [] => data
        end
      else if bool_decide (node_data n = "meta") then
        let '(name, content) := meta_attrs (node_attr n) EmptyString EmptyString in
        if bool_decide (name = "description")
        then set_MetaDescription content data else data
      else data
  | _ => data
  end.

(** Lines 77-107: the recursive closure [extract]. *)
Fixpoint extract (n : Node) (data : SEOData) : SEOData :=
  let data1 := visit n data in
  match n with
  | MkNode _ _ _ cs =>
      (fix siblings (cs : list Node) (acc : SEOData) : SEOData :=
         match cs with
         | [] => acc
         | c :: cs' => siblings cs' (extract c acc)
         end) cs data1
  end.

(** Lines 66-111. *)
Definition GetSEOData (resp : HTTPResponse) : SEOData * option ParseError :=
  let data := {| URL := RequestURL resp; Title := EmptyString; H1 := EmptyString;
                 MetaDescription := EmptyString; StatusCode := RespStatus resp |} in
  match Parsed resp with
  | None => (data, Some HTMLParseError)
  | Some doc => (extract doc data, None)
  end.

(** The nodes in the order [extract] visits them. *)
Fixpoint preorder (n : Node) : list Node :=
  n :: match n with
       | MkNode _ _ _ cs =>
           (fix siblings (cs : list Node) : list Node :=
              match cs with
              | [] => []
              | c :: cs' => preorder c ++ siblings cs'
              end) cs
       end.

(** The text an element named [tag] hands over: the [Data] of its first
    child. *)
Definition first_child_text (tag : string) (n : Node) : option string :=
  match node_type n with
  | ElementNode =>
      if bool_decide (node_data n = tag) then
        match node_children n with
        | c :: _ => Some (node_data c)
        | [] => None
        end
      else None
  | _ => None
  end.

(** The content of a [meta] element whose name is [description]. *)
Definition description_text (n : Node) : option string :=
  match node_type n with
  | ElementNode =>
      if bool_decide (node_data n = "meta") then
        let '(name, content) := meta_attrs (node_attr n) EmptyString EmptyString in
        if bool_decide (name = "description") then Some content else None
      else None
  | _ => None
  end.

(** The values of the attributes with key [k], in order. *)
Definition attr_values (k : string) (attrs : list Attribute) : list string :=
  Val <$> filter (λ a, Key a = k) attrs.

Definition nonempty (s : string) : Prop := s ≠ EmptyString.

(** The first string of a list that is not empty, the empty string when
    there is none. *)
Definition first_nonempty (l : list string) : string :=
  default EmptyString (head (filter nonempty l)).

(** The state of [data] after the nodes of [l] have been visited in
    order. *)
Definition visit_all (l : list Node) (data : SEOData) : SEOData :=
  foldl (λ acc m, visit m acc) data l.

End Parser.

(** * Proofs *)

(** ** Arithmetic and counting *)

Lemma wrap64_id z : int_range z -> wrap64 z = z.
Proof.
unfold int_range, min_int, max_int, wrap64. intros Hz.
rewrite Z.mod_small; lia.
Qed.

Lemma visited_at_mark u v σ :
visited_at u (set_visited (<[v := true]> (visited σ)) σ)
= if decide (u = v) then true else visited_at u σ.
Proof.
unfold visited_at; simpl. case_decide as Huv.
- subst. by rewrite lookup_insert_eq.
- by rewrite lookup_insert_ne.
Qed.

Section Totals.
Implicit Types (w : goroutine → Z) (ts : list goroutine).

Lemma total_app w ts1 ts2 : total w (ts1 ++ ts2) = total w ts1 + total w ts2.
Proof. induction ts1 as [|g ts1 IH]; simpl; [done | rewrite IH; lia]. Qed.

Lemma total_insert w ts i g g' :
  ts !! i = Some g → total w (<[i := g']> ts) = total w ts - w g + w g'.
Proof.
  revert i. induction ts as [|a ts IH]; intros [|i] Hi; simplify_eq/=.
  - lia.
  - rewrite (IH _ Hi). lia.
Qed.

Lemma total_nonneg w ts : (∀ g, 0 <= w g) → 0 <= total w ts.
Proof. intros Hw. induction ts as [|a ts IH]; simpl; [lia | specialize (Hw a); lia]. Qed.

Lemma total_le w1 w2 ts : (∀ g, w1 g <= w2 g) → total w1 ts <= total w2 ts.
Proof. intros Hw. induction ts as [|a ts IH]; simpl; [lia | specialize (Hw a); lia]. Qed.

(** The goroutines other than number [i] weigh no more under a smaller
    weight. *)
Lemma total_others_le w1 w2 ts i g :
  (∀ g, w1 g <= w2 g) → ts !! i = Some g →
  total w1 ts - w1 g <= total w2 ts - w2 g.
Proof.
  intros Hw. revert i. induction ts as [|a ts IH]; intros [|i] Hi; simplify_eq/=.
  - pose proof (total_le w1 w2 ts Hw). lia.
  - specialize (IH _ Hi). specialize (Hw a). lia.
Qed.

Lemma total_lookup_le w ts i g :
  (∀ g, 0 <= w g) → ts !! i = Some g → w g <= total w ts.
Proof.
  intros Hw. revert i. induction ts as [|a ts IH]; intros [|i] Hi; simplify_eq/=.
  - pose proof (total_nonneg w ts Hw). lia.
  - specialize (IH _ Hi). specialize (Hw a). lia.
Qed.

Lemma tally_nonneg f tr : 0 <= tally f tr.
Proof. induction tr as [|e tr IH]; simpl; [lia | destruct (f e); simpl; lia]. Qed.

Lemma tally_elem f tr e : e ∈ tr → f e = true → 1 <= tally f tr.
Proof.
  induction tr as [|a tr IH]; [by intros ?%elem_of_nil |].
  intros [->|Hin]%elem_of_cons Hf; simpl.
  - rewrite Hf. pose proof (tally_nonneg f tr). simpl. lia.
  - specialize (IH Hin Hf). destruct (f a); simpl; lia.
Qed.

Lemma url_weight_range u v : 0 <= url_weight u v <= 1.
Proof. unfold url_weight. case_decide; lia. Qed.

End Totals.

Lemma b2z_range b : 0 <= Z.b2z b <= 1.
Proof. destruct b; simpl; lia. Qed.

Lemma weights_nonneg :
  (∀ g, 0 <= w_cs g) ∧ (∀ g, 0 <= w_pass g) ∧ (∀ u g, 0 <= w_mark u g) ∧
  (∀ u g, 0 <= w_inc u g) ∧ (∀ u g, 0 <= w_prefetch u g) ∧ (∀ u g, 0 <= w_own u g) ∧
  (∀ g, 0 <= w_own_all g) ∧ (∀ g, 0 <= w_main g) ∧ (∀ g, 0 <= w_post g) ∧
  (∀ g, 0 <= w_add g) ∧ (∀ g, 0 <= w_live g) ∧ (∀ g, 0 <= w_hold g).
Proof.
  split_and!; intros; destruct g as [[]| |? ? []|[]|[]|]; simpl;
    try lia; apply url_weight_range.
Qed.

Lemma w_pass_cs g : w_pass g <= w_cs g.
Proof. destruct g as [[]| |? ? []|[]|[]|]; simpl; lia. Qed.

Lemma w_mark_cs u g : w_mark u g <= w_cs g.
Proof.
  destruct g as [[]| |? v []|[]|[]|]; simpl; try lia;
    pose proof (url_weight_range u v); lia.
Qed.

Lemma w_post_main g : w_post g <= w_main g.
Proof. destruct g as [[]| |? ? []|[]|[]|]; simpl; lia. Qed.

Lemma w_hold_live g : w_hold g <= w_live g.
Proof. destruct g as [| | | |[]|]; simpl; lia. Qed.

Lemma nonneg_totals (ts : list goroutine) :
  0 <= total w_pass ts ∧ 0 <= total w_own_all ts ∧ 0 <= total w_hold ts ∧
  0 <= total w_live ts ∧ 0 <= total w_add ts ∧
  ∀ u, 0 <= total (w_inc u) ts ∧ 0 <= total (w_own u) ts ∧
       0 <= total (w_prefetch u) ts.
Proof.
  pose proof weights_nonneg as (N1 & N2 & N3 & N4 & N5 & N6 & N7 & N8 & N9 & N10 & N11 & N12).
  split_and!; try (apply total_nonneg; auto).
  intros u. split_and!; apply total_nonneg; auto.
Qed.

Ltac bool_facts :=
  repeat match goal with
  | H : _ || _ = true |- _ => apply orb_true_iff in H
  | H : _ || _ = false |- _ => apply orb_false_iff in H; destruct H
  | H : (_ >=? _) = _ |- _ => rewrite Z.geb_leb in H
  | H : (_ <=? _) = true |- _ => apply Z.leb_le in H
  | H : (_ <=? _) = false |- _ => apply Z.leb_gt in H
  | H : (_ <? _) = true |- _ => apply Z.ltb_lt in H
  | H : (_ <? _) = false |- _ => apply Z.ltb_ge in H
  | H : (_ =? _) = true |- _ => apply Z.eqb_eq in H
  | H : (_ =? _) = false |- _ => apply Z.eqb_neq in H
  end.

(** ** The invariants hold along every run *)

Section Preservation.
Context {L : NetURL} (cfg : Config) (web : Web).
Hypothesis Hmax : maxURLs cfg <= max_int.

Lemma exec_preserves σ ts i g σ' g' sp :
  Inv cfg σ ts → ts !! i = Some g → exec cfg web σ g = Some (σ', g', sp) →
  Inv cfg σ' (<[i := g']> ts ++ sp).
Proof.
  intros HI Hi Hex.
  pose proof weights_nonneg as (N1 & N2 & N3 & N4 & N5 & N6 & N7 & N8 & N9 & N10 & N11 & N12).
  pose proof (total_lookup_le _ ts i g N1 Hi).
  pose proof (total_lookup_le _ ts i g N2 Hi).
  pose proof (total_lookup_le _ ts i g N7 Hi).
  pose proof (total_lookup_le _ ts i g N8 Hi).
  pose proof (total_lookup_le _ ts i g N9 Hi).
  pose proof (total_lookup_le _ ts i g N10 Hi).
  pose proof (total_lookup_le _ ts i g N11 Hi).
  pose proof (total_lookup_le _ ts i g N12 Hi).
  pose proof (total_others_le _ _ ts i g w_pass_cs Hi).
  pose proof (total_others_le _ _ ts i g w_post_main Hi).
  assert (Hurl : ∀ u,
    w_mark u g <= total (w_mark u) ts ∧ w_inc u g <= total (w_inc u) ts ∧
    w_prefetch u g <= total (w_prefetch u) ts ∧ w_own u g <= total (w_own u) ts ∧
    total (w_mark u) ts - w_mark u g <= total w_cs ts - w_cs g).
  { intros u. split_and!; try (eapply total_lookup_le; eauto; fail).
    eapply total_others_le; eauto using w_mark_cs. }
  assert (E : ∀ w, total w (<[i := g']> ts ++ sp)
                   = total w ts - w g + w g' + total w sp).
  { intros w. rewrite total_app. by erewrite total_insert. }
  destruct HI as [Imu Ipos Icap Iadm Iadm_of Imark Ifetch Ipush Ipushes Iq
                  Ist Icomp Isp Ifp Iwg Imain Ipost Isaved].
  pose proof (b2z_range (mu σ)).
  destruct g as [pc| |k v pc|pc|pc|]; simpl in Hex; try destruct pc; simpl in *;
    unfold panic, scrapeURLFromWorklist, crawl_return in *;
    repeat case_match; simplify_eq; bool_facts.
  all: split; simpl; intros.
  all: repeat match goal with
              | H : context [total _ (<[_ := _]> _ ++ _)] |- _ => rewrite !E in H
              end; rewrite ?E; simpl in *.
  all: try match goal with
           | |- context [total (?w ?u) _] =>
               pose proof (Hurl u) as (? & ? & ? & ? & ?);
               pose proof (Iadm_of u); pose proof (Imark u) as Hm;
               pose proof (Ifetch u); pose proof (Ipush u);
               match type of Hm with
               | _ + Z.b2z ?b <= 1 => pose proof (b2z_range b)
               end
           end.
  all: unfold visited_at, url_weight, atomic_add1 in *; simpl in *.
  all: rewrite ?lookup_insert in *.
  all: repeat (case_decide || case_bool_decide); simplify_eq; simpl in *.
  all: repeat match goal with
              | H : default false _ = _ |- _ => rewrite H in *; clear H
              end; simpl in *.
  all: rewrite ?wrap64_id by (unfold int_range, min_int, max_int in *; lia).
  all: try match goal with
           | Hs : saved _ = Some _ |- _ ∧ _ =>
               destruct (Isaved _ Hs) as [? ->];
               split; [lia | (reflexivity || (exfalso; lia))]
           | |- _ ∧ _ = _ => split; [lia | reflexivity]
           end.
  all: try lia.
  - rewrite length_app. simpl. lia.
  - match goal with H : worklist _ = _ |- _ => rewrite H in * end.
    simpl in *. lia.
Qed.

Lemma exec_extends σ g σ' g' sp :
  exec cfg web σ g = Some (σ', g', sp) → extends σ σ'.
Proof.
  intros Hex.
  destruct g as [pc| |k v pc|pc|pc|]; simpl in Hex; try destruct pc; simpl in *;
    unfold panic, scrapeURLFromWorklist in *;
    repeat case_match; simplify_eq; split; simpl;
    try (by exists []); try (by eexists [_]); try done.
  intros u. rewrite visited_at_mark. by case_decide.
Qed.

Lemma local_extends σ σ' g : extends σ σ' → local web σ g → local web σ' g.
Proof.
  intros [[es Hes] Hv] Hl.
  assert (Hin : ∀ e, e ∈ trace σ → e ∈ trace σ').
  { intros e He. rewrite Hes. apply elem_of_app. by right. }
  destruct g as [| |k u pc| | |]; simpl in *; try done.
  destruct Hl as [Hk Hpc]. split.
  - destruct k; auto.
  - destruct pc; intuition auto.
Qed.

Lemma ordered_app h1 e h2 : ordered web (h1 ++ e :: h2) → ev_ok web e h2.
Proof. induction h1 as [|a h1 IH]; simpl; [tauto | intros [_ ?]; auto]. Qed.

Lemma exec_preserves_order σ ts i g σ' g' sp :
  InvL web σ ts → ts !! i = Some g → exec cfg web σ g = Some (σ', g', sp) →
  InvL web σ' (<[i := g']> ts ++ sp).
Proof.
  intros [Hl Ho] Hi Hex.
  pose proof (exec_extends _ _ _ _ _ Hex) as Hext.
  assert (Hg : local web σ g) by (eapply Forall_lookup_1; eauto).
  assert (Hothers : Forall (local web σ') ts).
  { eapply Forall_impl; [exact Hl |]. intros; by eapply local_extends. }
  clear Hext Hl.
  cut (local web σ' g' ∧ Forall (local web σ') sp ∧ ordered web (trace σ')).
  { intros (? & ? & ?). split; [|done].
    apply Forall_app. split; [|done]. by apply Forall_insert. }
  destruct g as [pc| |k v pc|pc|pc|]; simpl in Hex; try destruct pc; simpl in *;
    unfold panic, scrapeURLFromWorklist, crawl_return in *;
    repeat case_match; simplify_eq; simpl in *;
    rewrite ?visited_at_mark; repeat case_decide; try done.
  all: repeat match goal with
              | H : (_ =? _) = true |- _ => apply Z.eqb_eq in H; subst
              | H : _ ∧ _ |- _ => destruct H
              end.
  all: rewrite ?Forall_singleton, ?Forall_nil; simpl.
  all: split_and!; try done; eauto using list_elem_of_here, list_elem_of_further.
Qed.

Lemma init_good : Good cfg web init.
Proof.
  split; split; simpl; try done; try lia.
  repeat constructor.
Qed.

Lemma step_good a s s' : Good cfg web s → step cfg web a s = Some s' → Good cfg web s'.
Proof.
  intros [HI HL] Hstep. unfold step in Hstep.
  destruct (status (sh s)); try done.
  destruct a as [i|d].
  - destruct (threads s !! i) as [g|] eqn:Hi; [|done].
    destruct (exec cfg web (sh s) g) as [[[σ' g'] sp]|] eqn:Hex; [|done].
    simplify_eq; simpl. split.
    + by eapply exec_preserves.
    + by eapply exec_preserves_order.
  - case_match; simplify_eq. split.
    + destruct HI; by split.
    + destruct HL; by split.
Qed.

Lemma run_good acts s s' : Good cfg web s → run cfg web acts s = Some s' → Good cfg web s'.
Proof.
  revert s. induction acts as [|a acts IH]; intros s Hs Hrun; simpl in Hrun.
  - by simplify_eq.
  - destruct (step cfg web a s) as [s1|] eqn:Hstep; [|done].
    eapply IH; [|exact Hrun]. by eapply step_good.
Qed.

Lemma reachable_good acts s : run cfg web acts init = Some s → Good cfg web s.
Proof. apply run_good, init_good. Qed.

End Preservation.

(** ** Runs *)

Lemma run_app {L : NetURL} cfg web a1 a2 s :
  run cfg web (a1 ++ a2) s
  = match run cfg web a1 s with Some s' => run cfg web a2 s' | None => None end.
Proof.
  revert s. induction a1 as [|a a1 IH]; intros s; simpl; [done|].
  destruct (step cfg web a s); [apply IH | done].
Qed.

Lemma tally_app f t1 t2 : tally f (t1 ++ t2) = tally f t1 + tally f t2.
Proof. induction t1 as [|e t1 IH]; simpl; [done | rewrite IH; lia]. Qed.

(** ** The discovery engine and the worker pool *)

Section Orchestration.
Context {L : NetURL} (cfg : Config) (web : Web).

Lemma step_extends a s s' : step cfg web a s = Some s' → extends (sh s) (sh s').
Proof.
  intros Hstep. unfold step in Hstep.
  destruct (status (sh s)); try done.
  destruct a as [i|d].
  - destruct (threads s !! i) as [g|] eqn:Hi; [|done].
    destruct (exec cfg web (sh s) g) as [[[σ' g'] sp]|] eqn:Hex; [|done].
    simplify_eq; simpl. by eapply exec_extends.
  - case_match; simplify_eq. split; [by exists [] | done].
Qed.

(** X9.  The row written by [saveCrawlStats] accounts for every popped item in
    its success and failure columns, and its total column repeats the
    success column. *)
Lemma saved_stats_account_for_pops acts s row :
  maxURLs cfg <= max_int →
  run cfg web acts init = Some s →
  saved (sh s) = Some row →
  SuccessPages row + FailedPages row = tally is_pop (trace (sh s)) ∧
  TotalPages row = SuccessPages row.
Proof.
  intros Hmax Hrun Hs.
  destruct (reachable_good cfg web Hmax _ _ Hrun) as [HI _].
  destruct HI as [_ _ _ _ _ _ _ _ _ _ Hst Hcomp _ _ Hwg _ Hpost Hsaved].
  destruct (Hsaved _ Hs) as [Hp ->]. simpl.
  pose proof (nonneg_totals (threads s)) as (_ & _ & ? & ? & ? & _).
  pose proof (total_le _ _ (threads s) w_hold_live).
  specialize (Hpost Hp). lia.
Qed.

(** C2.  In every state of every run, whatever the interleaving of the
    goroutines, a URL has been admitted at most once and its fetch has
    been started at most once; an admitted URL is marked in [visited]; and
    no step of any goroutine removes a mark. *)
Theorem no_duplicate_admission acts s u :
  maxURLs cfg <= max_int →
  run cfg web acts init = Some s →
  tally (is_admit_of u) (trace (sh s)) <= 1 ∧
  tally (is_fetch_of u) (trace (sh s)) <= 1 ∧
  (1 <= tally (is_admit_of u) (trace (sh s)) → visited_at u (sh s) = true) ∧
  (∀ a s', step cfg web a s = Some s' →
           visited_at u (sh s) = true → visited_at u (sh s') = true).
Proof.
  intros Hmax Hrun.
  destruct (reachable_good cfg web Hmax _ _ Hrun) as [HI _].
  pose proof (inv_admit_of _ _ _ HI u) as Hadm.
  pose proof (inv_fetch_of _ _ _ HI u) as Hfetch.
  pose proof (nonneg_totals (threads s)) as (_ & _ & _ & _ & _ & Hn).
  destruct (Hn u) as (? & ? & ?).
  pose proof (b2z_range (visited_at u (sh s))).
  split_and!; try lia.
  - intros ?. destruct (visited_at u (sh s)); simpl in *; [done | lia].
  - intros a s' Hstep. apply (step_extends _ _ _ Hstep).
Qed.

(** C3.  For a cap between zero and the largest [int], in every state of
    every run the number of admissions, together with the goroutines that
    have passed the test of line 241 and not yet incremented the counter,
    is at most [maxURLs]; and at most one goroutine stands between the
    Lock of line 240 and the Unlock of line 242 or 248. *)
Theorem cap_respected acts s :
  0 <= maxURLs cfg <= max_int →
  run cfg web acts init = Some s →
  tally is_admit (trace (sh s)) + total w_pass (threads s) <= maxURLs cfg ∧
  total w_cs (threads s) <= 1.
Proof.
  intros [Hpos Hmax] Hrun.
  destruct (reachable_good cfg web Hmax _ _ Hrun) as [HI _].
  pose proof (inv_cap _ _ _ HI). pose proof (inv_admits _ _ _ HI).
  pose proof (inv_mu _ _ _ HI). pose proof (b2z_range (mu (sh s))).
  pose proof (nonneg_totals (threads s)) as (? & _). lia.
Qed.

(** C4.  In every state of every run a URL has been pushed on the
    worklist at most once and only if it was admitted; a push of [u]
    comes after the fetch of [u], which answered 200; and a goroutine
    crawling a link extracted from [u] exists, and so can be admitted,
    only after the push of [u]. *)
Theorem work_item_once_after_fetch acts s u :
  maxURLs cfg <= max_int →
  run cfg web acts init = Some s →
  tally (is_push_of u) (trace (sh s)) <= 1 ∧
  tally (is_push_of u) (trace (sh s)) <= tally (is_admit_of u) (trace (sh s)) ∧
  (∀ h1 h2, trace (sh s) = h1 ++ EvPush u :: h2 →
     EvFetch u ∈ h2 ∧ ∃ body, snd (makeRequest web u) = Resp 200 body) ∧
  (∀ h1 h2 v, trace (sh s) = h1 ++ EvAdmit (KChild u) v :: h2 → EvPush u ∈ h2) ∧
  (∀ i v pc, threads s !! i = Some (GCrawl (KChild u) v pc) →
     EvPush u ∈ trace (sh s)).
Proof.
  intros Hmax Hrun.
  destruct (reachable_good cfg web Hmax _ _ Hrun) as [HI [Hloc Hord]].
  pose proof (inv_admit_of _ _ _ HI u) as Hadm.
  pose proof (inv_push_of _ _ _ HI u) as Hpush.
  pose proof (nonneg_totals (threads s)) as (_ & _ & _ & _ & _ & Hn).
  destruct (Hn u) as (? & ? & ?).
  pose proof (b2z_range (visited_at u (sh s))).
  split_and!; try lia.
  - intros h1 h2 Htr. rewrite Htr in Hord.
    apply (ordered_app web) in Hord. exact Hord.
  - intros h1 h2 v Htr. rewrite Htr in Hord.
    apply (ordered_app web) in Hord. exact Hord.
  - intros i v pc Hi.
    pose proof (Forall_lookup_1 _ _ _ _ Hloc Hi) as [Hk _]. exact Hk.
Qed.

(** C6.  When the discovery request of a goroutine comes back with an
    error or with a status other than 200, its step leaves the shared
    state as it is (nothing is pushed, no counter moves, nothing is
    logged), starts no goroutine, leaves every other goroutine where it
    is, and returns from [crawl]. *)
Theorem discovery_failure_is_silent s i k u current ready :
  status (sh s) = Running →
  threads s !! i = Some (GCrawl k u (C250_wait current ready)) →
  ready <= clock (sh s) →
  (snd (makeRequest web u) = RequestErr ∨
   ∃ code body, snd (makeRequest web u) = Resp code body ∧ code ≠ 200) →
  step cfg web (Run i) s
  = Some {| sh := sh s; threads := <[i := crawl_return k]> (threads s) |}.
Proof.
  intros Hst Hi Hready Hresp. unfold step. rewrite Hst, Hi. simpl.
  apply Z.leb_le in Hready. rewrite Hready.
  destruct Hresp as [-> | (code & body & -> & Hcode)].
  - by rewrite app_nil_r.
  - apply Z.eqb_neq in Hcode. rewrite Hcode. by rewrite app_nil_r.
Qed.


(** C10.  In every state of every run: the fetch of a URL comes after its
    admission; a goroutine whose request is on its way has its URL marked
    and admitted; every admitted URL is marked; the counter equals the
    number of admissions, whatever became of their fetches; a URL is
    fetched at most once; no step lowers the counter or removes a mark.
    And [lost_slot_example] is a finished run that produces fewer Work
    Items than the cap although a linked page that answers 200 was left
    out. *)
Theorem failed_fetch_consumes_slot acts s :
  maxURLs cfg <= max_int →
  run cfg web acts init = Some s →
  (∀ h1 h2 u, trace (sh s) = h1 ++ EvFetch u :: h2 → ∃ k, EvAdmit k u ∈ h2) ∧
  (∀ i k u pc, threads s !! i = Some (GCrawl k u pc) → fetching pc →
     visited_at u (sh s) = true ∧ EvAdmit k u ∈ trace (sh s)) ∧
  (∀ k u, EvAdmit k u ∈ trace (sh s) → visited_at u (sh s) = true) ∧
  tally is_admit (trace (sh s)) = count (sh s) ∧
  (∀ u, tally (is_fetch_of u) (trace (sh s)) <= 1) ∧
  (∀ a s', step cfg web a s = Some s' →
     count (sh s) <= count (sh s') ∧
     ∀ u, visited_at u (sh s) = true → visited_at u (sh s') = true) ∧
  lost_slot_example.
Proof.
  intros Hmax Hrun.
  destruct (reachable_good cfg web Hmax _ _ Hrun) as [HI [Hloc Hord]].
  pose proof (nonneg_totals (threads s)) as (_ & _ & _ & _ & _ & Hn).
  split_and!.
  - intros h1 h2 u Htr. rewrite Htr in Hord.
    apply (ordered_app web) in Hord. exact Hord.
  - intros i k u pc Hi Hpc.
    pose proof (Forall_lookup_1 _ _ _ _ Hloc Hi) as [_ Hl].
    destruct pc; simpl in *; try done; tauto.
  - intros k u Hin.
    pose proof (inv_admit_of _ _ _ HI u) as Hadm.
    assert (1 <= tally (is_admit_of u) (trace (sh s))).
    { apply (tally_elem _ _ _ Hin). simpl. by apply bool_decide_eq_true. }
    destruct (Hn u) as (? & _).
    destruct (visited_at u (sh s)); simpl in *; [done | lia].
  - apply (inv_admits _ _ _ HI).
  - intros u. destruct (Hn u) as (? & ? & ?).
    pose proof (inv_admit_of _ _ _ HI u). pose proof (inv_fetch_of _ _ _ HI u).
    pose proof (b2z_range (visited_at u (sh s))). lia.
  - intros a s' Hstep. split.
    + assert (Hrun' : run cfg web (acts ++ [a]) init = Some s').
      { rewrite run_app, Hrun. simpl. by rewrite Hstep. }
      destruct (reachable_good cfg web Hmax _ _ Hrun') as [HI' _].
      rewrite <- (inv_admits _ _ _ HI), <- (inv_admits _ _ _ HI').
      destruct (step_extends _ _ _ Hstep) as [[es ->] _].
      rewrite tally_app. pose proof (tally_nonneg is_admit es). lia.
    + apply (step_extends _ _ _ Hstep).
  - unfold lost_slot_example. split_and!; vm_compute; reflexivity.
Qed.

End Orchestration.

(** ** The completion signal *)

(** C1.  With the seed linking to a page that answers after six seconds,
    less than the client's timeout and more than the sleep of line 272,
    the run [slow_sched_1] closes the worklist while the goroutine of
    that page is still waiting for its response; when the response
    arrives, [slow_sched_2], the goroutine reaches the send of line 260
    on the closed channel and the process panics. *)
Theorem fixed_delay_closes_worklist_early :
  run (L := SimpleURL.lib) main_config slow_web slow_sched_1 init = Some slow_state ∧
  latency slow_web slow_page < client_timeout ∧
  sleep_ms < latency slow_web slow_page ∧
  status (sh slow_state) = Running ∧
  closed (sh slow_state) = true ∧
  threads slow_state !! 8%nat
  = Some (GCrawl (KChild books) slow_page (C250_wait 2 6100)) ∧
  run (L := SimpleURL.lib) main_config slow_web slow_sched_2 slow_state
  = Some slow_final ∧
  threads slow_final !! 8%nat = Some (GCrawl (KChild books) slow_page (C260 2 [])) ∧
  status (sh slow_final) = Panicked.
Proof. split_and!; vm_compute; reflexivity. Qed.

(** ** The statistics row *)

(** C5.  In the finished run [flaky_sched] one Work Item is popped and
    its scrape fails: the saved row counts one failure, no success, and
    a total of zero. *)
Theorem total_pages_counts_successes_only :
  run (L := SimpleURL.lib) main_config flaky_web flaky_sched init = Some flaky_final ∧
  status (sh flaky_final) = Exited ∧
  tally is_pop (trace (sh flaky_final)) = 1 ∧
  saved (sh flaky_final)
  = Some {| TotalPages := 0; SuccessPages := 0; FailedPages := 1; StartURL := books |}.
Proof. split_and!; vm_compute; reflexivity. Qed.

(** ** The link extractor *)

Section Links.
Context {L : NetURL}.

Lemma URL_Parse_total b ref : ∃ r, URL_Parse (Some b) ref = Return r.
Proof.
unfold URL_Parse. destruct (url_Parse ref); [|by eexists].
case_bool_decide; by eexists.
Qed.

Lemma extractLinks_attrs_total b attrs links :
∃ links', extractLinks_attrs (Some b) attrs links = Return links'.
Proof.
revert links. induction attrs as [|attr attrs IH]; intros links; simpl.
- by eexists.
- case_bool_decide; [|apply IH].
  destruct (URL_Parse_total b (Val attr)) as [[link|] ->]; apply IH.
Qed.

Lemma extractLinks_loop_total b tokens links :
∃ links', extractLinks_loop (Some b) tokens links = Return links'.
Proof.
revert links. induction tokens as [|token tokens IH]; intros links; simpl.
- by eexists.
- case_bool_decide; [by eexists|].
  destruct (bool_decide (Type_ token = StartTagToken) && bool_decide (Data token = "a"));
    [|apply IH].
  destruct (extractLinks_attrs_total b (Attr token) links) as [links' ->].
  apply IH.
Qed.

Lemma URL_Parse_resolves b ref :
URL_Parse (Some b) ref = Return (resolve_reference b <$> url_Parse ref).
Proof.
unfold URL_Parse, resolve_reference. destruct (url_Parse ref); [|done].
simpl. by case_bool_decide.
Qed.

Lemma resolved_links_app b h1 h2 :
resolved_links b (h1 ++ h2) = resolved_links b h1 ++ resolved_links b h2.
Proof. unfold resolved_links. by rewrite omap_app, fmap_app. Qed.

Lemma extractLinks_attrs_resolved b attrs links :
extractLinks_attrs (Some b) attrs links
= Return (links ++ resolved_links b (tag_hrefs attrs)).
Proof.
revert links. induction attrs as [|attr attrs IH]; intros links; simpl.
- by rewrite app_nil_r.
- unfold tag_hrefs. cbn [filter list_filter]. case_bool_decide as Hk.
  + rewrite decide_True by done. rewrite URL_Parse_resolves.
    unfold resolved_links. cbn [fmap list_fmap omap list_omap].
    destruct (url_Parse (Val attr)) as [r|]; simpl.
    * rewrite IH. unfold resolved_links, tag_hrefs. by rewrite <- app_assoc.
    * apply IH.
  + rewrite decide_False by done. apply IH.
Qed.

Lemma extractLinks_loop_resolved b tokens links :
extractLinks_loop (Some b) tokens links
= Return (links ++ resolved_links b (href_values tokens)).
Proof.
revert links. induction tokens as [|token tokens IH]; intros links; simpl.
- by rewrite app_nil_r.
- unfold is_error, is_anchor_start. case_bool_decide.
  + by rewrite app_nil_r.
  + destruct (bool_decide (Type_ token = StartTagToken) && bool_decide (Data token = "a"));
      [|apply IH].
    rewrite extractLinks_attrs_resolved, IH, resolved_links_app.
    by rewrite <- app_assoc.
Qed.

(** C8, as amended.  For every body and every base URL that [url.Parse]
  accepts, [extractLinks] returns, and what it returns is exactly one
  link for each href that parses, in document order, taken from the
  start tags named [a] before the first read error: an href that does
  not parse is skipped, nothing of it reaches the list, and nothing
  panics.  When no href parses the list is empty. *)
Theorem extractLinks_total_on_parsable_base body baseURL b :
url_Parse baseURL = Some b →
extractLinks body baseURL = Return (resolved_links b (href_values body)) ∧
(Forall (λ href, url_Parse href = None) (href_values body) →
 extractLinks body baseURL = Return []).
Proof.
intros Hb.
assert (E : extractLinks body baseURL = Return (resolved_links b (href_values body))).
{ unfold extractLinks. rewrite Hb. cbv zeta. by rewrite extractLinks_loop_resolved. }
split; [done |]. intros Hnone. rewrite E. f_equal. clear E.
unfold resolved_links. induction Hnone as [|href hrefs Hh _ IH]; [done |].
cbn [omap list_omap]. by rewrite Hh.
Qed.

End Links.

(** With a base that does not parse, a relative href makes
    [extractLinks] panic. *)
Lemma extractLinks_panics_on_unparsable_base :
  url_Parse (NetURL := SimpleURL.lib) ":" = None ∧
  extractLinks (L := SimpleURL.lib) [anchor "/about"] ":" = Panic.
Proof. split; reflexivity. Qed.

(** The second href of the body does not parse: the list holds the
    first link and nothing else. *)
Lemma extractLinks_total_witness :
  url_Parse (NetURL := SimpleURL.lib) books
  = Some {| SimpleURL.scheme := "http"; SimpleURL.rest := "//books.toscrape.com" |} ∧
  url_Parse (NetURL := SimpleURL.lib) ":bad" = None ∧
  resolved_links (L := SimpleURL.lib)
    {| SimpleURL.scheme := "http"; SimpleURL.rest := "//books.toscrape.com" |}
    (href_values [anchor "/about"; anchor ":bad"])
  = ["http://books.toscrape.com/about"] ∧
  (extractLinks (L := SimpleURL.lib) [anchor "/about"; anchor ":bad"] books
   = Return
       (resolved_links (L := SimpleURL.lib)
          {| SimpleURL.scheme := "http"; SimpleURL.rest := "//books.toscrape.com" |}
          (href_values [anchor "/about"; anchor ":bad"])) ∧
   (Forall (λ href, url_Parse (NetURL := SimpleURL.lib) href = None)
      (href_values [anchor "/about"; anchor ":bad"]) →
    extractLinks (L := SimpleURL.lib) [anchor "/about"; anchor ":bad"] books
    = Return [])).
Proof.
  assert (H : url_Parse (NetURL := SimpleURL.lib) books
              = Some {| SimpleURL.scheme := "http";
                        SimpleURL.rest := "//books.toscrape.com" |})
    by reflexivity.
  split; [exact H |]. split; [reflexivity |]. split; [reflexivity |].
  exact (extractLinks_total_on_parsable_base (L := SimpleURL.lib)
           [anchor "/about"; anchor ":bad"] books _ H).
Defined.

(** In the crawler the base URL always parses: line 262 is reached only
    after [makeRequest] has succeeded on the same URL, and
    [http.NewRequest] has parsed it.  So the call of [extractLinks] in
    [crawl] returns. *)
Section CrawlLinks.
Context {L : NetURL} (cfg : Config) (web : Web).

Lemma makeRequest_parses u code body :
  snd (makeRequest web u) = Resp code body → is_Some (url_Parse u).
Proof. unfold makeRequest. destruct (url_Parse u); [by eexists | done]. Qed.

(** X10.  In every state of every run, a goroutine standing at line 262 gets a
    list from [extractLinks]: the call does not panic. *)
Lemma crawl_extractLinks_returns acts s i k u current body :
  maxURLs cfg <= max_int →
  run cfg web acts init = Some s →
  threads s !! i = Some (GCrawl k u (C262 current body)) →
  ∃ links, extractLinks body u = Return links.
Proof.
  intros Hmax Hrun Hi.
  destruct (reachable_good cfg web Hmax _ _ Hrun) as [_ [Hloc Hord]].
  pose proof (Forall_lookup_1 _ _ _ _ Hloc Hi) as (_ & _ & Hpush).
  apply list_elem_of_split in Hpush as (h1 & h2 & Htr).
  rewrite Htr in Hord. apply (ordered_app web) in Hord.
  destruct Hord as (_ & body' & Hresp).
  destruct (makeRequest_parses _ _ _ Hresp) as [b Hb].
  unfold extractLinks. rewrite Hb. apply extractLinks_loop_total.
Qed.

End CrawlLinks.

(** ** The theorems at the example runs *)

Lemma no_duplicate_admission_witness :
  maxURLs two_pages <= max_int ∧
  run (L := SimpleURL.lib) two_pages broken_link_web broken_link_sched init
  = Some broken_link_final ∧
  tally (is_admit_of page_a) (trace (sh broken_link_final)) <= 1 ∧
  tally (is_fetch_of page_a) (trace (sh broken_link_final)) <= 1 ∧
  (1 <= tally (is_admit_of page_a) (trace (sh broken_link_final)) →
   visited_at page_a (sh broken_link_final) = true) ∧
  (∀ a s', step (L := SimpleURL.lib) two_pages broken_link_web a broken_link_final = Some s' →
           visited_at page_a (sh broken_link_final) = true →
           visited_at page_a (sh s') = true).
Proof.
  assert (H1 : maxURLs two_pages <= max_int) by (vm_compute; discriminate).
  assert (H2 : run (L := SimpleURL.lib) two_pages broken_link_web broken_link_sched init
               = Some broken_link_final) by (vm_compute; reflexivity).
  split; [exact H1 |]. split; [exact H2 |].
  exact (no_duplicate_admission (L := SimpleURL.lib) two_pages broken_link_web
           broken_link_sched broken_link_final page_a H1 H2).
Defined.

Lemma cap_respected_witness :
  0 <= maxURLs two_pages <= max_int ∧
  run (L := SimpleURL.lib) two_pages broken_link_web broken_link_sched init
  = Some broken_link_final ∧
  tally is_admit (trace (sh broken_link_final))
  + total w_pass (threads broken_link_final) <= maxURLs two_pages ∧
  total w_cs (threads broken_link_final) <= 1.
Proof.
  assert (H1 : 0 <= maxURLs two_pages <= max_int)
    by (split; vm_compute; discriminate).
  assert (H2 : run (L := SimpleURL.lib) two_pages broken_link_web broken_link_sched init
               = Some broken_link_final) by (vm_compute; reflexivity).
  split; [exact H1 |]. split; [exact H2 |].
  exact (cap_respected (L := SimpleURL.lib) two_pages broken_link_web
           broken_link_sched broken_link_final H1 H2).
Defined.

Lemma work_item_once_after_fetch_witness :
  maxURLs two_pages <= max_int ∧
  run (L := SimpleURL.lib) two_pages broken_link_web broken_link_sched init
  = Some broken_link_final ∧
  tally (is_push_of books) (trace (sh broken_link_final)) <= 1 ∧
  tally (is_push_of books) (trace (sh broken_link_final))
  <= tally (is_admit_of books) (trace (sh broken_link_final)) ∧
  (∀ h1 h2, trace (sh broken_link_final) = h1 ++ EvPush books :: h2 →
     EvFetch books ∈ h2 ∧
     ∃ body, snd (makeRequest (L := SimpleURL.lib) broken_link_web books) = Resp 200 body) ∧
  (∀ h1 h2 v, trace (sh broken_link_final) = h1 ++ EvAdmit (KChild books) v :: h2 →
     EvPush books ∈ h2) ∧
  (∀ i v pc, threads broken_link_final !! i = Some (GCrawl (KChild books) v pc) →
     EvPush books ∈ trace (sh broken_link_final)).
Proof.
  assert (H1 : maxURLs two_pages <= max_int) by (vm_compute; discriminate).
  assert (H2 : run (L := SimpleURL.lib) two_pages broken_link_web broken_link_sched init
               = Some broken_link_final) by (vm_compute; reflexivity).
  split; [exact H1 |]. split; [exact H2 |].
  exact (work_item_once_after_fetch (L := SimpleURL.lib) two_pages broken_link_web
           broken_link_sched broken_link_final books H1 H2).
Defined.

Lemma discovery_failure_is_silent_witness :
  status (sh broken_link_state) = Running ∧
  threads broken_link_state !! 8%nat
  = Some (GCrawl (KChild books) page_a (C250_wait 2 200)) ∧
  200 <= clock (sh broken_link_state) ∧
  (snd (makeRequest (L := SimpleURL.lib) broken_link_web page_a) = RequestErr ∨
   ∃ code body, snd (makeRequest (L := SimpleURL.lib) broken_link_web page_a) = Resp code body ∧ code ≠ 200) ∧
  step (L := SimpleURL.lib) two_pages broken_link_web (Run 8) broken_link_state
  = Some {| sh := sh broken_link_state;
            threads := <[8%nat := crawl_return (KChild books)]> (threads broken_link_state) |}.
Proof.
  assert (H1 : status (sh broken_link_state) = Running) by reflexivity.
  assert (H2 : threads broken_link_state !! 8%nat
               = Some (GCrawl (KChild books) page_a (C250_wait 2 200))) by reflexivity.
  assert (H3 : 200 <= clock (sh broken_link_state)) by (vm_compute; discriminate).
  assert (H4 : snd (makeRequest (L := SimpleURL.lib) broken_link_web page_a) = RequestErr ∨
               ∃ code body, snd (makeRequest (L := SimpleURL.lib) broken_link_web page_a) = Resp code body
                            ∧ code ≠ 200).
  { right. exists 404, []. split; [reflexivity | discriminate]. }
  split; [exact H1 |]. split; [exact H2 |]. split; [exact H3 |]. split; [exact H4 |].
  exact (discovery_failure_is_silent (L := SimpleURL.lib) two_pages broken_link_web
           broken_link_state 8 (KChild books) page_a 2 200 H1 H2 H3 H4).
Defined.


Lemma failed_fetch_consumes_slot_witness :
  maxURLs two_pages <= max_int ∧
  run (L := SimpleURL.lib) two_pages broken_link_web broken_link_prefix init
  = Some broken_link_state ∧
  (∀ h1 h2 u, trace (sh broken_link_state) = h1 ++ EvFetch u :: h2 →
     ∃ k, EvAdmit k u ∈ h2) ∧
  (∀ i k u pc, threads broken_link_state !! i = Some (GCrawl k u pc) → fetching pc →
     visited_at u (sh broken_link_state) = true ∧
     EvAdmit k u ∈ trace (sh broken_link_state)) ∧
  (∀ k u, EvAdmit k u ∈ trace (sh broken_link_state) →
     visited_at u (sh broken_link_state) = true) ∧
  tally is_admit (trace (sh broken_link_state)) = count (sh broken_link_state) ∧
  (∀ u, tally (is_fetch_of u) (trace (sh broken_link_state)) <= 1) ∧
  (∀ a s', step (L := SimpleURL.lib) two_pages broken_link_web a broken_link_state = Some s' →
     count (sh broken_link_state) <= count (sh s') ∧
     ∀ u, visited_at u (sh broken_link_state) = true → visited_at u (sh s') = true) ∧
  lost_slot_example.
Proof.
  assert (H1 : maxURLs two_pages <= max_int) by (vm_compute; discriminate).
  assert (H2 : run (L := SimpleURL.lib) two_pages broken_link_web broken_link_prefix init
               = Some broken_link_state) by (vm_compute; reflexivity).
  split; [exact H1 |]. split; [exact H2 |].
  exact (failed_fetch_consumes_slot (L := SimpleURL.lib) two_pages broken_link_web
           broken_link_prefix broken_link_state H1 H2).
Defined.

(** ** The hand-off invariant holds along every run *)

Section FlowProofs.
Context {L : NetURL} (cfg : Config) (web : Web).
Hypothesis Hworkers : numWorkers cfg <= max_int.

Lemma timed_clock σ σ' g : clock σ <= clock σ' → timed σ g → timed σ' g.
Proof. intros Hc. destruct g as [[]| | |[]| |]; simpl; try done; lia. Qed.

Lemma exec_clock σ g σ' g' sp :
  exec cfg web σ g = Some (σ', g', sp) → clock σ' = clock σ.
Proof.
  intros Hex.
  destruct g as [pc| |k v pc|pc|pc|]; simpl in Hex; try destruct pc; simpl in *;
    unfold panic, scrapeURLFromWorklist in *;
    repeat case_match; simplify_eq; done.
Qed.

Lemma exec_flow σ ts i g σ' g' sp :
  Flow cfg σ ts → ts !! i = Some g → exec cfg web σ g = Some (σ', g', sp) →
  Flow cfg σ' (<[i := g']> ts ++ sp).
Proof.
  intros HF Hi Hex.
  assert (E : ∀ w, total w (<[i := g']> ts ++ sp)
                   = total w ts - w g + w g' + total w sp).
  { intros w. rewrite total_app. by erewrite total_insert. }
  pose proof (exec_clock _ _ _ _ _ Hex) as Hclock.
  destruct HF as [Ffifo Fcap Fclose Fpre Fpost Fmain Floop Fclock Ftimed Fdone Flate Fsaved].
  pose proof (Forall_lookup_1 _ _ _ _ Fmain Hi) as Hmain.
  pose proof (Forall_lookup_1 _ _ _ _ Ftimed Hi) as Htimed.
  assert (Hothers : Forall (timed σ') ts).
  { eapply Forall_impl; [exact Ftimed |]. intros x. apply timed_clock. lia. }
  assert (Hfor : ∀ P : goroutine → Prop, Forall P ts → P g' → Forall P sp →
                 Forall P (<[i := g']> ts ++ sp)).
  { intros P H1 H2 H3. apply Forall_app. split; [by apply Forall_insert | done]. }
  pose proof (b2z_range (closed σ)).
  destruct g as [pc| |k v pc|pc|pc|]; simpl in Hex; try destruct pc; simpl in *;
    unfold panic, scrapeURLFromWorklist, crawl_return in *;
    repeat case_match; simplify_eq; bool_facts.
  all: split; simpl; intros.
  all: repeat match goal with
              | H : context [total _ (<[_ := _]> _ ++ _)] |- _ => rewrite !E in H
              end; rewrite ?E; simpl in *.
  all: try (apply Hfor; [done | simpl | repeat constructor]).
  all: rewrite ?wrap64_id by (unfold int_range, min_int, max_int in *; lia).
  all: try done; try lia.
  all: try match goal with
           | H1 : _ ∨ _ |- _ <= _ =>
               first
                 [ exfalso; destruct H1; congruence
                 | match type of Floop with
                   | ?P → _ =>
                       let Hold := fresh in
                       assert (Hold : P) by
                         (first [ exact H1 | right; congruence | left; congruence
                                | destruct H1; [left | right]; congruence ]);
                       specialize (Floop Hold); lia
                   end ]
           end.
  all: try (first [ apply Fdone; congruence | apply Flate; congruence
                  | apply Fsaved; congruence ]).
  all: repeat match goal with
              | H : closed _ = _ |- _ => rewrite H in *; clear H
              | H : worklist _ = _ |- _ => rewrite H in *; clear H
              | H : (_ <? _)%nat = true |- _ => apply Nat.ltb_lt in H
              end; simpl in *.
  all: rewrite ?length_app; simpl; try lia.
  all: rewrite ?Ffifo, <- ?app_assoc; try done.
Qed.

Lemma init_flow : Flow cfg init_shared [GMain M352].
Proof.
  split; simpl; try done; try lia; try (repeat constructor; fail).
  all: intros ?; simpl in *; first [done | lia].
Qed.

Lemma step_flow a s s' :
  Flow cfg (sh s) (threads s) → step cfg web a s = Some s' →
  Flow cfg (sh s') (threads s').
Proof.
  intros HF Hstep. unfold step in Hstep.
  destruct (status (sh s)); try done.
  destruct a as [i|d].
  - destruct (threads s !! i) as [g|] eqn:Hi; [|done].
    destruct (exec cfg web (sh s) g) as [[[σ' g'] sp]|] eqn:Hex; [|done].
    simplify_eq; simpl. by eapply exec_flow.
  - case_match; simplify_eq. apply Z.leb_le in H.
    destruct HF as [Ffifo Fcap Fclose Fpre Fpost Fmain Floop Fclock Ftimed Fdone Flate Fsaved].
    split; simpl; try done; try lia.
    + eapply Forall_impl; [exact Ftimed |]. intros x. apply timed_clock. simpl. lia.
    + intros Hd. specialize (Fdone Hd). lia.
    + intros Hd. specialize (Flate Hd). lia.
    + intros Hd. specialize (Fsaved Hd). lia.
Qed.

Lemma run_flow acts s s' :
  Flow cfg (sh s) (threads s) → run cfg web acts s = Some s' →
  Flow cfg (sh s') (threads s').
Proof.
  revert s. induction acts as [|a acts IH]; intros s Hs Hrun; simpl in Hrun.
  - by simplify_eq.
  - destruct (step cfg web a s) as [s1|] eqn:Hstep; [|done].
    eapply IH; [|exact Hrun]. by eapply step_flow.
Qed.

Lemma reachable_flow acts s :
  run cfg web acts init = Some s → Flow cfg (sh s) (threads s).
Proof. apply run_flow, init_flow. Qed.

End FlowProofs.

(** ** Properties of the hand-off, of panics and of shutdown *)

Lemma occurs_app u l1 l2 : occurs u (l1 ++ l2) = occurs u l1 + occurs u l2.
Proof. induction l1 as [|v l1 IH]; simpl; [done | rewrite IH; lia]. Qed.

Lemma occurs_nonneg u l : 0 <= occurs u l.
Proof.
  induction l as [|v l IH]; simpl; [lia | pose proof (url_weight_range u v); lia].
Qed.

Lemma occurs_pushed u tr : occurs u (pushed_urls tr) = tally (is_push_of u) tr.
Proof.
  induction tr as [|e tr IH]; simpl; [done |].
  destruct e; simpl; rewrite ?occurs_app, IH; simpl; try lia.
  all: unfold url_weight; case_decide; case_bool_decide; simpl; try done; lia.
Qed.

Lemma occurs_popped u tr : occurs u (popped_urls tr) = tally (is_pop_of u) tr.
Proof.
  induction tr as [|e tr IH]; simpl; [done |].
  destruct e; simpl; rewrite ?occurs_app, IH; simpl; try lia.
  all: unfold url_weight; case_decide; case_bool_decide; simpl; try done; lia.
Qed.

Lemma tally_le f1 f2 tr :
  (∀ e, f1 e = true → f2 e = true) → tally f1 tr <= tally f2 tr.
Proof.
  intros Hf. induction tr as [|e tr IH]; simpl; [lia |].
  specialize (Hf e). destruct (f1 e), (f2 e); simpl; try lia.
  all: by specialize (Hf eq_refl).
Qed.

Lemma total_scale c w ts : total (λ g, c * w g) ts = c * total w ts.
Proof. induction ts as [|g ts IH]; simpl; [lia | rewrite IH; lia]. Qed.

Lemma w_loop_live g : w_loop g <= w_live g.
Proof. destruct g as [| | | |[]|]; simpl; lia. Qed.

Lemma w_postclose_post g : w_post g <= w_postclose g.
Proof. destruct g as [[]| | | | |]; simpl; lia. Qed.

Lemma w_started_post cfg g :
  Z.max 0 (numWorkers cfg) * w_post g <= w_started cfg g.
Proof. destruct g as [[]| | | | |]; simpl; lia. Qed.

Lemma total_pos_lookup w ts :
  (∀ g, 0 <= w g) → 1 <= total w ts → ∃ i g, ts !! i = Some g ∧ 1 <= w g.
Proof.
  intros Hw. induction ts as [|a ts IH]; simpl; [lia |].
  intros Ht. destruct (decide (1 <= w a)) as [Ha|Ha].
  - by exists 0%nat, a.
  - specialize (Hw a). destruct IH as (i & g & Hi & Hg); [lia |].
    by exists (S i), g.
Qed.

Section HandOff.
Context {L : NetURL} (cfg : Config) (web : Web).

(** X1.  The URLs pushed so far are, in order, the URLs popped so far followed
    by the content of the worklist, which never holds more than its
    capacity: the hand-off loses nothing, duplicates nothing and keeps
    the order. *)
Theorem worklist_is_fifo acts s :
  numWorkers cfg <= max_int →
  run cfg web acts init = Some s →
  pushed_urls (trace (sh s)) = popped_urls (trace (sh s)) ++ worklist (sh s) ∧
  (length (worklist (sh s)) <= worklist_cap)%nat.
Proof.
  intros Hw Hrun. pose proof (reachable_flow cfg web Hw _ _ Hrun) as HF.
  split; [apply (flow_fifo _ _ _ HF) | apply (flow_cap _ _ _ HF)].
Qed.

(** X2.  No URL is handed to the workers twice: a URL is popped at most once,
    and only if it was pushed. *)
Theorem url_scraped_at_most_once acts s u :
  maxURLs cfg <= max_int → numWorkers cfg <= max_int →
  run cfg web acts init = Some s →
  tally (is_pop_of u) (trace (sh s)) <= tally (is_push_of u) (trace (sh s)) ∧
  tally (is_pop_of u) (trace (sh s)) <= 1.
Proof.
  intros Hm Hw Hrun.
  pose proof (reachable_flow cfg web Hw _ _ Hrun) as HF.
  destruct (reachable_good cfg web Hm _ _ Hrun) as [HI _].
  pose proof (flow_fifo _ _ _ HF) as Hfifo.
  apply (f_equal (occurs u)) in Hfifo.
  rewrite occurs_app, occurs_pushed, occurs_popped in Hfifo.
  pose proof (occurs_nonneg u (worklist (sh s))).
  pose proof (inv_admit_of _ _ _ HI u). pose proof (inv_push_of _ _ _ HI u).
  pose proof (nonneg_totals (threads s)) as (_ & _ & _ & _ & _ & Hn).
  destruct (Hn u) as (? & ? & ?).
  pose proof (b2z_range (visited_at u (sh s))). lia.
Qed.

(** X3.  The cap bounds the whole pipeline: pages counted by the workers are
    no more than pages popped, those no more than pages pushed, those no
    more than pages admitted, and those no more than [maxURLs]. *)
Theorem pipeline_bounded_by_cap acts s :
  0 <= maxURLs cfg <= max_int →
  run cfg web acts init = Some s →
  successPages (stats (sh s)) + failedPages (stats (sh s))
  <= tally is_pop (trace (sh s)) ∧
  tally is_pop (trace (sh s)) <= tally is_push (trace (sh s)) ∧
  tally is_push (trace (sh s)) <= tally is_admit (trace (sh s)) ∧
  tally is_admit (trace (sh s)) <= maxURLs cfg.
Proof.
  intros [Hpos Hm] Hrun.
  destruct (reachable_good cfg web Hm _ _ Hrun) as [HI _].
  destruct HI as [_ Hc Hcap Hadm _ _ _ _ Hpushes Hq Hstats _ Hsp Hfp _ _ _ _].
  pose proof (nonneg_totals (threads s)) as (? & ? & ? & _). lia.
Qed.

(** X4.  With a cap of zero or less the seed itself is turned away: nothing is
    admitted, no request is sent, nothing is pushed and the worklist
    stays empty. *)
Theorem nonpositive_cap_admits_nothing acts s :
  maxURLs cfg <= 0 →
  run cfg web acts init = Some s →
  tally is_admit (trace (sh s)) = 0 ∧
  (∀ u, tally (is_fetch_of u) (trace (sh s)) = 0) ∧
  tally is_push (trace (sh s)) = 0 ∧
  worklist (sh s) = [].
Proof.
  intros Hz Hrun.
  assert (Hm : maxURLs cfg <= max_int) by (unfold max_int; lia).
  destruct (reachable_good cfg web Hm _ _ Hrun) as [HI _].
  destruct HI as [_ Hc Hcap Hadm _ _ Hfetch _ Hpushes Hq _ _ _ _ _ _ _ _].
  pose proof (nonneg_totals (threads s)) as (? & ? & ? & ? & ? & Hn).
  pose proof (tally_nonneg is_push (trace (sh s))).
  pose proof (tally_nonneg is_pop (trace (sh s))).
  assert (Ha : tally is_admit (trace (sh s)) = 0) by lia.
  split_and!; try lia.
  - intros u. specialize (Hfetch u). destruct (Hn u) as (? & ? & ?).
    pose proof (tally_nonneg (is_fetch_of u) (trace (sh s))).
    pose proof (tally_le (is_admit_of u) is_admit (trace (sh s))) as Hle.
    assert (tally (is_admit_of u) (trace (sh s)) <= tally is_admit (trace (sh s))).
    { apply Hle. intros [] ?; simpl in *; done. }
    lia.
  - destruct (worklist (sh s)); [done | simpl in *; lia].
Qed.

(** X5.  The only way a run panics is a send on the closed worklist: the
    goroutine that takes the step stands at line 260 and the worklist is
    closed.  In particular [close] is never called twice, [wg.Done] never
    drives the counter below zero and [extractLinks] never panics inside
    [crawl]. *)
Theorem panic_only_by_send_on_closed acts s a s' :
  maxURLs cfg <= max_int → numWorkers cfg <= max_int →
  run cfg web acts init = Some s →
  step cfg web a s = Some s' →
  status (sh s') = Panicked →
  ∃ i k u current body,
    a = Run i ∧
    threads s !! i = Some (GCrawl k u (C260 current body)) ∧
    closed (sh s) = true.
Proof.
  intros Hm Hw Hrun Hstep Hp.
  pose proof (reachable_flow cfg web Hw _ _ Hrun) as HF.
  destruct (reachable_good cfg web Hm _ _ Hrun) as [HI [Hloc Hord]].
  unfold step in Hstep.
  destruct (status (sh s)) eqn:Hst; try done.
  destruct a as [i|d]; [|case_match; simplify_eq; simpl in *; congruence].
  destruct (threads s !! i) as [g|] eqn:Hi; [|done].
  destruct (exec cfg web (sh s) g) as [[[σ' g'] sp]|] eqn:Hex; [|done].
  simplify_eq; simpl in Hp.
  pose proof weights_nonneg as (_ & _ & _ & _ & _ & _ & _ & _ & _ & _ & N11 & _).
  pose proof (total_lookup_le _ _ _ _ N11 Hi) as Hlive.
  pose proof (inv_wg _ _ _ HI) as Hwg.
  pose proof (nonneg_totals (threads s)) as (_ & _ & _ & _ & Hadd & _).
  pose proof (flow_preclose _ _ _ HF) as Hpre.
  assert (Hprec : ∀ w, (∀ g, 0 <= w g) → w g <= total w (threads s)).
  { intros w Hw0. by eapply total_lookup_le. }
  assert (Hpc : w_preclose g <= total w_preclose (threads s)).
  { apply Hprec. intros [[]| | | | |]; simpl; lia. }
  pose proof (Forall_lookup_1 _ _ _ _ Hloc Hi) as Hl.
  destruct g as [pc| |k v pc|pc|pc|]; simpl in Hex; try destruct pc; simpl in *;
    unfold panic, scrapeURLFromWorklist, crawl_return in *;
    repeat case_match; simplify_eq; simpl in *; bool_facts;
    try congruence; try lia.
  all: try (by eexists _, _, _, _, _).
  all: exfalso.
  all: destruct Hl as (_ & _ & Hpush).
  all: apply list_elem_of_split in Hpush as (h1 & h2 & Htr).
  all: rewrite Htr in Hord; apply (ordered_app web) in Hord.
  all: destruct Hord as (_ & body' & Hresp).
  all: destruct (makeRequest_parses _ _ _ _ Hresp) as [b Hb].
  all: unfold extractLinks in *; rewrite Hb in *.
  all: match goal with
       | H : extractLinks_loop _ ?bd _ = Panic |- _ =>
           destruct (extractLinks_loop_total b bd []) as [? Heq]; congruence
       end.
Qed.

(** X6.  [close(worklist)] is executed at most once, and neither it nor the
    saving of the statistics happens before the clock shows the five
    seconds of line 272; when the statistics are saved the worklist is
    closed and every worker has left its loop. *)
Theorem shutdown_order acts s :
  maxURLs cfg <= max_int → numWorkers cfg <= max_int →
  run cfg web acts init = Some s →
  tally is_close (trace (sh s)) <= 1 ∧
  (closed (sh s) = true → sleep_ms <= clock (sh s)) ∧
  (saved (sh s) ≠ None →
     closed (sh s) = true ∧ sleep_ms <= clock (sh s) ∧
     total w_live (threads s) = 0).
Proof.
  intros Hm Hw Hrun.
  pose proof (reachable_flow cfg web Hw _ _ Hrun) as HF.
  destruct (reachable_good cfg web Hm _ _ Hrun) as [HI _].
  pose proof (b2z_range (closed (sh s))).
  split_and!.
  - rewrite (flow_close _ _ _ HF). lia.
  - apply (flow_closed_late _ _ _ HF).
  - intros Hs. destruct (saved (sh s)) as [row|] eqn:Hrow; [|done].
    destruct (inv_saved _ _ _ HI _ Hrow) as [Hp _].
    pose proof (inv_post _ _ _ HI Hp). pose proof (inv_wg _ _ _ HI).
    pose proof (nonneg_totals (threads s)) as (_ & _ & _ & ? & ? & _).
    pose proof (total_le _ _ (threads s) w_postclose_post).
    pose proof (flow_postclose _ _ _ HF).
    split_and!; try lia.
    + destruct (closed (sh s)); simpl in *; [done | lia].
    + apply (flow_saved_late _ _ _ HF). by rewrite Hrow.
Qed.

(** X7.  With at least one worker, a run that reaches the saving of the
    statistics has drained the worklist: it is empty, every pushed URL
    has been popped, in order, and the row's successes and failures add
    up to the number of pushes. *)
Theorem worklist_drained_at_save acts s row :
  maxURLs cfg <= max_int → 1 <= numWorkers cfg <= max_int →
  run cfg web acts init = Some s →
  saved (sh s) = Some row →
  worklist (sh s) = [] ∧
  popped_urls (trace (sh s)) = pushed_urls (trace (sh s)) ∧
  SuccessPages row + FailedPages row = tally is_push (trace (sh s)).
Proof.
  intros Hm [Hw1 Hw] Hrun Hrow.
  pose proof (reachable_flow cfg web Hw _ _ Hrun) as HF.
  destruct (reachable_good cfg web Hm _ _ Hrun) as [HI _].
  destruct (inv_saved _ _ _ HI _ Hrow) as [Hp ->]. simpl.
  pose proof (inv_post _ _ _ HI Hp). pose proof (inv_wg _ _ _ HI).
  pose proof (inv_stats _ _ _ HI). pose proof (inv_queue _ _ _ HI).
  pose proof (nonneg_totals (threads s)) as (_ & _ & ? & ? & ? & _).
  pose proof (total_le _ _ (threads s) w_hold_live).
  pose proof (total_le _ _ (threads s) w_loop_live).
  pose proof (total_le _ _ (threads s) (w_started_post cfg)) as Hst.
  rewrite total_scale in Hst.
  assert (Hempty : worklist (sh s) = []).
  { destruct (worklist (sh s)) as [|x l] eqn:Hwl; [done |].
    pose proof (flow_loop _ _ _ HF) as Hl. rewrite Hwl in Hl.
    assert (Hne : x :: l ≠ [] ∨ closed (sh s) = false) by (by left).
    specialize (Hl Hne). nia. }
  split_and!; [done | |].
  - pose proof (flow_fifo _ _ _ HF) as Hf. rewrite Hempty, app_nil_r in Hf. done.
  - rewrite Hempty in *. simpl in *. lia.
Qed.

(** X8.  A page whose admission number has reached the cap follows none of its
    links: the loop of lines 263-267 runs to its end without starting a
    goroutine and without touching the shared state. *)
Theorem last_slot_follows_no_links links s i k u current :
  status (sh s) = Running →
  threads s !! i = Some (GCrawl k u (C263 current links)) →
  maxURLs cfg <= current →
  run cfg web (runs i (S (length links))) s
  = Some {| sh := sh s; threads := <[i := crawl_return k]> (threads s) |}.
Proof.
  revert s. induction links as [|link links IH]; intros [σ ts] Hst Hi Hcur; simpl in *.
  - unfold step. simpl. rewrite Hst, Hi. simpl. by rewrite app_nil_r.
  - unfold step at 1. simpl. rewrite Hst, Hi. simpl.
    assert (Hlt : (current <? maxURLs cfg) = false) by (apply Z.ltb_ge; lia).
    rewrite Hlt, app_nil_r.
    specialize (IH {| sh := σ; threads := <[i := GCrawl k u (C263 current links)]> ts |}).
    simpl in IH. unfold runs in IH. simpl in IH. rewrite IH; try done.
    + by rewrite list_insert_insert_eq.
    + apply list_lookup_insert_eq. by eapply lookup_lt_Some.
Qed.

(** X11.  The mutex is locked exactly when one goroutine stands between the
    Lock of line 240 and an Unlock: both ways out of the critical
    section, the early return of line 242 and line 248, release it, so a
    goroutine that has left never keeps it. *)
Theorem mutex_locked_iff_inside acts s :
  maxURLs cfg <= max_int →
  run cfg web acts init = Some s →
  total w_cs (threads s) = Z.b2z (mu (sh s)) ∧
  (mu (sh s) = true ↔ ∃ i g, threads s !! i = Some g ∧ w_cs g = 1).
Proof.
  intros Hm Hrun.
  destruct (reachable_good cfg web Hm _ _ Hrun) as [HI _].
  pose proof (inv_mu _ _ _ HI) as Hmu. split; [done |].
  pose proof weights_nonneg as (N1 & _).
  split.
  - intros Hlocked. rewrite Hlocked in Hmu. simpl in Hmu.
    destruct (total_pos_lookup w_cs (threads s)) as (i & g & Hi & Hg); [done | lia |].
    exists i, g. split; [done |].
    destruct g as [| |? ? []| | |]; simpl in *; lia.
  - intros (i & g & Hi & Hg).
    pose proof (total_lookup_le _ _ _ _ N1 Hi).
    destruct (mu (sh s)); simpl in *; [done | lia].
Qed.

End HandOff.

(** ** Properties of the link extractor *)

Section LinksMore.
Context {L : NetURL}.

Lemma extractLinks_attrs_acc b attrs acc :
  ∃ l, extractLinks_attrs (Some b) attrs [] = Return l ∧
       extractLinks_attrs (Some b) attrs acc = Return (acc ++ l).
Proof.
  revert acc. induction attrs as [|attr attrs IH]; intros acc; simpl.
  - exists []. by rewrite app_nil_r.
  - case_bool_decide; [|apply IH].
    destruct (URL_Parse_total b (Val attr)) as [[link|] ->]; [|apply IH].
    destruct (IH [url_String link]) as (l1 & H0 & H1).
    destruct (IH (acc ++ [url_String link])) as (l2 & H2 & H3).
    rewrite H0 in H2. simplify_eq. simpl.
    rewrite H1, H3. eexists. split; [done |]. by rewrite <- app_assoc.
Qed.

Lemma extractLinks_loop_acc b tokens acc :
  ∃ l, extractLinks_loop (Some b) tokens [] = Return l ∧
       extractLinks_loop (Some b) tokens acc = Return (acc ++ l).
Proof.
  revert acc. induction tokens as [|t tokens IH]; intros acc; simpl.
  - exists []. by rewrite app_nil_r.
  - case_bool_decide; [exists []; by rewrite app_nil_r |].
    destruct (bool_decide (Type_ t = StartTagToken) && bool_decide (Data t = "a"));
      [|apply IH].
    destruct (extractLinks_attrs_acc b (Attr t) acc) as (l1 & H1 & H2).
    rewrite H1, H2.
    destruct (IH l1) as (l2 & H3 & H4). destruct (IH (acc ++ l1)) as (l3 & H5 & H6).
    rewrite H3 in H5. simplify_eq.
    rewrite H4, H6. eexists. split; [done |]. by rewrite <- app_assoc.
Qed.

Lemma extractLinks_loop_app base b1 b2 acc :
  Forall (λ t, Type_ t ≠ ErrorToken) b1 →
  extractLinks_loop base (b1 ++ b2) acc
  = match extractLinks_loop base b1 acc with
    | Return l => extractLinks_loop base b2 l
    | Panic => Panic
    end.
Proof.
  intros Hb1. revert acc. induction Hb1 as [|t b1 Ht _ IH]; intros acc; simpl; [done |].
  rewrite bool_decide_eq_false_2 by done.
  destruct (bool_decide (Type_ t = StartTagToken) && bool_decide (Data t = "a"));
    [|apply IH].
  destruct (extractLinks_attrs base (Attr t) acc); [apply IH | done].
Qed.

(** X12.  A read error ends the scan: what follows the first [ErrorToken] does
    not matter. *)
Theorem extractLinks_stops_at_error b1 e b2 baseURL :
  Forall (λ t, Type_ t ≠ ErrorToken) b1 →
  Type_ e = ErrorToken →
  extractLinks (b1 ++ e :: b2) baseURL = extractLinks b1 baseURL.
Proof.
  intros Hb1 He. unfold extractLinks.
  rewrite extractLinks_loop_app by done.
  rewrite <- (app_nil_r b1) at 2. rewrite extractLinks_loop_app by done.
  destruct (extractLinks_loop (url_Parse baseURL) b1 []); [|done].
  simpl. by rewrite bool_decide_eq_true_2.
Qed.

(** X13.  Only start tags named [a] count: dropping every other token, a
    self-closing [a] tag included, but keeping the error tokens, leaves
    the result as it is, panic or not. *)
Theorem extractLinks_only_anchor_start_tags body baseURL :
  extractLinks (filter (λ t, relevant t = true) body) baseURL
  = extractLinks body baseURL.
Proof.
  unfold extractLinks. generalize (@nil string) as acc.
  induction body as [|t body IH]; intros acc; [done |].
  cbn [filter list_filter]. unfold relevant, is_error, is_anchor_start in *.
  case_decide as Hr; simpl.
  - destruct (bool_decide (Type_ t = ErrorToken)); [done |].
    simpl in Hr. rewrite Hr.
    destruct (extractLinks_attrs _ _ _); [apply IH | done].
  - apply not_true_is_false, orb_false_iff in Hr as [-> ->]. apply IH.
Qed.

(** X14.  With a base that parses, the links of a body read without error
    followed by a second body are the links of the first followed by the
    links of the second: document order is kept and nothing is merged. *)
Theorem extractLinks_app b1 b2 baseURL :
  is_Some (url_Parse baseURL) →
  Forall (λ t, Type_ t ≠ ErrorToken) b1 →
  ∃ l1 l2,
    extractLinks b1 baseURL = Return l1 ∧
    extractLinks b2 baseURL = Return l2 ∧
    extractLinks (b1 ++ b2) baseURL = Return (l1 ++ l2).
Proof.
  intros [b Hb] Hb1. unfold extractLinks. rewrite Hb.
  rewrite extractLinks_loop_app by done.
  destruct (extractLinks_loop_acc b b1 []) as (l1 & H1 & _).
  destruct (extractLinks_loop_acc b b2 l1) as (l2 & H2 & H3).
  exists l1, l2. by rewrite H1, H2, H3.
Qed.

Lemma URL_Parse_absolute base base' ref :
  match url_Parse ref with
  | Some r => url_Scheme r ≠ EmptyString
  | None => True
  end →
  URL_Parse base ref = URL_Parse base' ref.
Proof.
  unfold URL_Parse. destruct (url_Parse ref); [|done].
  intros Hs. by rewrite bool_decide_eq_false_2.
Qed.

Lemma extractLinks_attrs_absolute base base' attrs acc :
  Forall (λ a, Key a = "href" →
               match url_Parse (Val a) with
               | Some r => url_Scheme r ≠ EmptyString
               | None => True
               end) attrs →
  extractLinks_attrs base attrs acc = extractLinks_attrs base' attrs acc.
Proof.
  intros Ha. revert acc. induction Ha as [|a attrs Ha _ IH]; intros acc; simpl; [done |].
  case_bool_decide; [|apply IH].
  rewrite (URL_Parse_absolute base base') by (by apply Ha).
  destruct (URL_Parse base' (Val a)) as [[?|]|]; first [apply IH | done].
Qed.

(** X15.  When every href is unparsable or carries a scheme, the base URL has
    no influence on the result, and an unparsable base does no harm. *)
Theorem extractLinks_absolute_ignores_base body baseURL baseURL' :
  absolute_hrefs body →
  extractLinks body baseURL = extractLinks body baseURL'.
Proof.
  intros Hb. unfold extractLinks. generalize (@nil string) as acc.
  induction Hb as [|t body Ht _ IH]; intros acc; simpl; [done |].
  case_bool_decide; [done |].
  destruct (bool_decide (Type_ t = StartTagToken) && bool_decide (Data t = "a"));
    [|apply IH].
  rewrite (extractLinks_attrs_absolute _ (url_Parse baseURL')) by done.
  destruct (extractLinks_attrs _ _ _); [apply IH | done].
Qed.

End LinksMore.

Lemma extractLinks_stops_at_error_witness :
  Forall (λ t, Type_ t ≠ ErrorToken) [anchor page_a] ∧
  Type_ error_token = ErrorToken ∧
  extractLinks (L := SimpleURL.lib) ([anchor page_a] ++ error_token :: [anchor page_b]) books
  = extractLinks (L := SimpleURL.lib) [anchor page_a] books.
Proof.
  assert (H1 : Forall (λ t, Type_ t ≠ ErrorToken) [anchor page_a])
    by (repeat constructor; discriminate).
  assert (H2 : Type_ error_token = ErrorToken) by reflexivity.
  split; [exact H1 |]. split; [exact H2 |].
  exact (extractLinks_stops_at_error (L := SimpleURL.lib)
           [anchor page_a] error_token [anchor page_b] books H1 H2).
Defined.

Lemma extractLinks_app_witness :
  is_Some (url_Parse (NetURL := SimpleURL.lib) books) ∧
  Forall (λ t, Type_ t ≠ ErrorToken) [anchor page_a; text_token "x"] ∧
  ∃ l1 l2,
    extractLinks (L := SimpleURL.lib) [anchor page_a; text_token "x"] books = Return l1 ∧
    extractLinks (L := SimpleURL.lib) [anchor "/b"] books = Return l2 ∧
    extractLinks (L := SimpleURL.lib) ([anchor page_a; text_token "x"] ++ [anchor "/b"]) books
    = Return (l1 ++ l2).
Proof.
  assert (H1 : is_Some (url_Parse (NetURL := SimpleURL.lib) books))
    by (eexists; reflexivity).
  assert (H2 : Forall (λ t, Type_ t ≠ ErrorToken) [anchor page_a; text_token "x"])
    by (repeat constructor; discriminate).
  split; [exact H1 |]. split; [exact H2 |].
  exact (extractLinks_app (L := SimpleURL.lib)
           [anchor page_a; text_token "x"] [anchor "/b"] books H1 H2).
Defined.

Lemma extractLinks_absolute_ignores_base_witness :
  absolute_hrefs (L := SimpleURL.lib) [anchor page_a; anchor ":bad"] ∧
  extractLinks (L := SimpleURL.lib) [anchor page_a; anchor ":bad"] ":"
  = extractLinks (L := SimpleURL.lib) [anchor page_a; anchor ":bad"] books.
Proof.
  assert (H1 : absolute_hrefs (L := SimpleURL.lib) [anchor page_a; anchor ":bad"]).
  { repeat constructor; intros _; vm_compute; discriminate || exact I. }
  split; [exact H1 |].
  exact (extractLinks_absolute_ignores_base (L := SimpleURL.lib)
           [anchor page_a; anchor ":bad"] ":" books H1).
Defined.

(** ** Properties of the page parser *)

Section ParserProofs.
Import Parser.

Lemma extract_preorder n data : extract n data = visit_all (preorder n) data.
Proof.
  revert data. induction n as [ty d attrs cs IH] using Node_nested_ind.
  intros data. unfold visit_all. simpl.
  generalize (visit (MkNode ty d attrs cs) data) as acc.
  induction IH as [|c cs Hc _ IHcs]; intros acc; simpl; [done |].
  rewrite foldl_app. unfold visit_all in Hc. rewrite <- Hc. apply IHcs.
Qed.

Lemma visit_frame m d : URL (visit m d) = URL d ∧ StatusCode (visit m d) = StatusCode d.
Proof.
  unfold visit. destruct (node_type m); try done.
  repeat (case_bool_decide || case_match); done.
Qed.

Lemma visit_Title m d :
  Title (visit m d) = default (Title d) (first_child_text "title" m).
Proof.
  unfold visit, first_child_text. destruct (node_type m); try done.
  repeat (case_bool_decide || case_match); simplify_eq; done.
Qed.

Lemma visit_MetaDescription m d :
  MetaDescription (visit m d) = default (MetaDescription d) (description_text m).
Proof.
  unfold visit, description_text. destruct (node_type m); try done.
  repeat (case_bool_decide || case_match); simplify_eq; try done; congruence.
Qed.

Lemma visit_H1 m d :
  H1 (visit m d)
  = if bool_decide (H1 d = EmptyString)
    then default EmptyString (first_child_text "h1" m) else H1 d.
Proof.
  unfold visit, first_child_text. destruct (node_type m); simpl;
    repeat (case_bool_decide || case_match); simplify_eq; try done; congruence.
Qed.

Lemma last_cons_default {A} (x : A) (l : list A) :
  last (x :: l) = Some (default x (last l)).
Proof.
  revert x. induction l as [|a l IH]; intros x; [done |].
  rewrite last_cons_cons. by rewrite !IH.
Qed.

Lemma last_default_cons {A} (x : A) (l : list A) d :
  default d (last (x :: l)) = default x (last l).
Proof. by rewrite last_cons_default. Qed.

Lemma visit_all_frame l d :
  URL (visit_all l d) = URL d ∧ StatusCode (visit_all l d) = StatusCode d.
Proof.
  revert d. induction l as [|m l IH]; intros d; simpl; [done |].
  destruct (IH (visit m d)) as [-> ->]. apply visit_frame.
Qed.

Lemma visit_all_Title l d :
  Title (visit_all l d) = default (Title d) (last (omap (first_child_text "title") l)).
Proof.
  revert d. induction l as [|m l IH]; intros d; simpl; [done |].
  unfold visit_all in *. simpl. rewrite IH, visit_Title.
  destruct (first_child_text "title" m); simpl; [|done].
  by rewrite last_default_cons.
Qed.

Lemma visit_all_MetaDescription l d :
  MetaDescription (visit_all l d)
  = default (MetaDescription d) (last (omap description_text l)).
Proof.
  revert d. induction l as [|m l IH]; intros d; simpl; [done |].
  unfold visit_all in *. simpl. rewrite IH, visit_MetaDescription.
  destruct (description_text m); simpl; [|done].
  by rewrite last_default_cons.
Qed.

Lemma first_nonempty_cons s l :
  first_nonempty (s :: l) = if bool_decide (s = EmptyString) then first_nonempty l else s.
Proof.
  unfold first_nonempty. cbn [filter list_filter]. unfold nonempty at 1.
  case_decide; case_bool_decide; try done.
Qed.

Lemma visit_all_H1 l d :
  H1 (visit_all l d) = first_nonempty (H1 d :: omap (first_child_text "h1") l).
Proof.
  revert d. induction l as [|m l IH]; intros d.
  - simpl. rewrite first_nonempty_cons. by case_bool_decide.
  - unfold visit_all in *. simpl. rewrite IH, visit_H1.
    rewrite !first_nonempty_cons.
    destruct (bool_decide (H1 d = EmptyString)) eqn:E.
    + destruct (first_child_text "h1" m); simpl.
      * by rewrite first_nonempty_cons.
      * done.
    + rewrite E. done.
Qed.

(** X16.  The record of [GetSEOData] always carries the request URL and the
    status code of the response; an error is returned exactly when
    [html.Parse] fails, and then the three text fields are empty. *)
Theorem GetSEOData_url_and_status resp :
  URL (fst (GetSEOData resp)) = RequestURL resp ∧
  StatusCode (fst (GetSEOData resp)) = RespStatus resp ∧
  (snd (GetSEOData resp) = None ↔ is_Some (Parsed resp)) ∧
  (Parsed resp = None →
   Title (fst (GetSEOData resp)) = EmptyString ∧
   H1 (fst (GetSEOData resp)) = EmptyString ∧
   MetaDescription (fst (GetSEOData resp)) = EmptyString).
Proof.
  unfold GetSEOData. destruct (Parsed resp) as [doc|]; simpl.
  - rewrite extract_preorder.
    destruct (visit_all_frame (preorder doc)
      {| URL := RequestURL resp; Title := EmptyString; H1 := EmptyString;
         MetaDescription := EmptyString; StatusCode := RespStatus resp |}) as [-> ->].
    split_and!; try done; try (by eexists).
  - split_and!; try done; try (by intros [? ?]).
Qed.

(** X17.  The title is the text of the last [title] element, in document
    order, that has a child; without one it is empty. *)
Theorem GetSEOData_title_last_wins url code doc :
  Title (fst (GetSEOData {| RequestURL := url; RespStatus := code;
                            Parsed := Some doc |}))
  = default EmptyString (last (omap (first_child_text "title") (preorder doc))).
Proof.
  unfold GetSEOData. simpl.
  by rewrite extract_preorder, visit_all_Title.
Qed.

(** X18.  The heading is the first non-empty text among the [h1] elements that
    have a child, in document order: later headings do not replace it,
    and a heading whose first child has empty text does not block the
    ones after it. *)
Theorem GetSEOData_first_nonempty_h1 url code doc :
  H1 (fst (GetSEOData {| RequestURL := url; RespStatus := code;
                            Parsed := Some doc |}))
  = first_nonempty (omap (first_child_text "h1") (preorder doc)).
Proof.
  unfold GetSEOData. simpl.
  rewrite extract_preorder, visit_all_H1. simpl.
  by rewrite first_nonempty_cons.
Qed.

(** X19.  The description is the content of the last [meta] element named
    [description], in document order. *)
Theorem GetSEOData_description_last_wins url code doc :
  MetaDescription (fst (GetSEOData {| RequestURL := url; RespStatus := code;
                            Parsed := Some doc |}))
  = default EmptyString (last (omap description_text (preorder doc))).
Proof.
  unfold GetSEOData. simpl.
  by rewrite extract_preorder, visit_all_MetaDescription.
Qed.

Lemma attr_values_cons k a attrs :
  attr_values k (a :: attrs)
  = if bool_decide (Key a = k) then Val a :: attr_values k attrs
    else attr_values k attrs.
Proof.
  unfold attr_values. cbn [filter list_filter].
  case_decide; case_bool_decide; done.
Qed.

Lemma meta_attrs_spec attrs name content :
  meta_attrs attrs name content
  = (default name (last (attr_values "name" attrs)),
     default content (last (attr_values "content" attrs))).
Proof.
  revert name content. induction attrs as [|a attrs IH]; intros name content; [done |].
  simpl. rewrite IH, !attr_values_cons.
  f_equal; case_bool_decide; try done; by rewrite last_default_cons.
Qed.

(** X20.  In a [meta] element the last [name] attribute and the last [content]
    attribute count, wherever they stand among the attributes; a missing
    one reads as the empty string. *)
Theorem meta_attrs_last_wins attrs :
  meta_attrs attrs EmptyString EmptyString
  = (default EmptyString (last (attr_values "name" attrs)),
     default EmptyString (last (attr_values "content" attrs))).
Proof. apply meta_attrs_spec. Qed.

End ParserProofs.

(** ** The further theorems at the example runs *)

Lemma worklist_is_fifo_witness :
  numWorkers main_config <= max_int ∧
  run (L := SimpleURL.lib) main_config slow_web slow_sched_1 init = Some slow_state ∧
  pushed_urls (trace (sh slow_state))
  = popped_urls (trace (sh slow_state)) ++ worklist (sh slow_state) ∧
  (length (worklist (sh slow_state)) <= worklist_cap)%nat.
Proof.
  assert (H1 : numWorkers main_config <= max_int) by (vm_compute; discriminate).
  assert (H2 : run (L := SimpleURL.lib) main_config slow_web slow_sched_1 init
               = Some slow_state) by (vm_compute; reflexivity).
  split; [exact H1 |]. split; [exact H2 |].
  exact (worklist_is_fifo (L := SimpleURL.lib) main_config slow_web
           slow_sched_1 slow_state H1 H2).
Defined.

Lemma url_scraped_at_most_once_witness :
  maxURLs main_config <= max_int ∧ numWorkers main_config <= max_int ∧
  run (L := SimpleURL.lib) main_config flaky_web flaky_sched init = Some flaky_final ∧
  tally (is_pop_of books) (trace (sh flaky_final))
  <= tally (is_push_of books) (trace (sh flaky_final)) ∧
  tally (is_pop_of books) (trace (sh flaky_final)) <= 1.
Proof.
  assert (H0 : maxURLs main_config <= max_int) by (vm_compute; discriminate).
  assert (H1 : numWorkers main_config <= max_int) by (vm_compute; discriminate).
  assert (H2 : run (L := SimpleURL.lib) main_config flaky_web flaky_sched init
               = Some flaky_final) by (vm_compute; reflexivity).
  split; [exact H0 |]. split; [exact H1 |]. split; [exact H2 |].
  exact (url_scraped_at_most_once (L := SimpleURL.lib) main_config flaky_web
           flaky_sched flaky_final books H0 H1 H2).
Defined.

Lemma pipeline_bounded_by_cap_witness :
  0 <= maxURLs two_pages <= max_int ∧
  run (L := SimpleURL.lib) two_pages broken_link_web broken_link_sched init
  = Some broken_link_final ∧
  successPages (stats (sh broken_link_final)) + failedPages (stats (sh broken_link_final))
  <= tally is_pop (trace (sh broken_link_final)) ∧
  tally is_pop (trace (sh broken_link_final))
  <= tally is_push (trace (sh broken_link_final)) ∧
  tally is_push (trace (sh broken_link_final))
  <= tally is_admit (trace (sh broken_link_final)) ∧
  tally is_admit (trace (sh broken_link_final)) <= maxURLs two_pages.
Proof.
  assert (H1 : 0 <= maxURLs two_pages <= max_int)
    by (split; vm_compute; discriminate).
  assert (H2 : run (L := SimpleURL.lib) two_pages broken_link_web broken_link_sched init
               = Some broken_link_final) by (vm_compute; reflexivity).
  split; [exact H1 |]. split; [exact H2 |].
  exact (pipeline_bounded_by_cap (L := SimpleURL.lib) two_pages broken_link_web
           broken_link_sched broken_link_final H1 H2).
Defined.

Lemma nonpositive_cap_admits_nothing_witness :
  maxURLs zero_cap <= 0 ∧
  run (L := SimpleURL.lib) zero_cap flaky_web zero_cap_sched init = Some zero_cap_state ∧
  tally is_admit (trace (sh zero_cap_state)) = 0 ∧
  (∀ u, tally (is_fetch_of u) (trace (sh zero_cap_state)) = 0) ∧
  tally is_push (trace (sh zero_cap_state)) = 0 ∧
  worklist (sh zero_cap_state) = [].
Proof.
  assert (H1 : maxURLs zero_cap <= 0) by (vm_compute; discriminate).
  assert (H2 : run (L := SimpleURL.lib) zero_cap flaky_web zero_cap_sched init
               = Some zero_cap_state) by (vm_compute; reflexivity).
  split; [exact H1 |]. split; [exact H2 |].
  exact (nonpositive_cap_admits_nothing (L := SimpleURL.lib) zero_cap flaky_web
           zero_cap_sched zero_cap_state H1 H2).
Defined.

Lemma panic_only_by_send_on_closed_witness :
  maxURLs main_config <= max_int ∧ numWorkers main_config <= max_int ∧
  run (L := SimpleURL.lib) main_config slow_web slow_sched_send init
  = Some slow_state_send ∧
  step (L := SimpleURL.lib) main_config slow_web (Run 8) slow_state_send
  = Some slow_final ∧
  status (sh slow_final) = Panicked ∧
  ∃ i k u current body,
    Run 8 = Run i ∧
    threads slow_state_send !! i = Some (GCrawl k u (C260 current body)) ∧
    closed (sh slow_state_send) = true.
Proof.
  assert (H0 : maxURLs main_config <= max_int) by (vm_compute; discriminate).
  assert (H1 : numWorkers main_config <= max_int) by (vm_compute; discriminate).
  assert (H2 : run (L := SimpleURL.lib) main_config slow_web slow_sched_send init
               = Some slow_state_send) by (vm_compute; reflexivity).
  assert (H3 : step (L := SimpleURL.lib) main_config slow_web (Run 8) slow_state_send
               = Some slow_final) by (vm_compute; reflexivity).
  assert (H4 : status (sh slow_final) = Panicked) by reflexivity.
  split; [exact H0 |]. split; [exact H1 |]. split; [exact H2 |].
  split; [exact H3 |]. split; [exact H4 |].
  exact (panic_only_by_send_on_closed (L := SimpleURL.lib) main_config slow_web
           slow_sched_send slow_state_send (Run 8) slow_final H0 H1 H2 H3 H4).
Defined.

Lemma shutdown_order_witness :
  maxURLs main_config <= max_int ∧ numWorkers main_config <= max_int ∧
  run (L := SimpleURL.lib) main_config flaky_web flaky_sched init = Some flaky_final ∧
  tally is_close (trace (sh flaky_final)) <= 1 ∧
  (closed (sh flaky_final) = true → sleep_ms <= clock (sh flaky_final)) ∧
  (saved (sh flaky_final) ≠ None →
     closed (sh flaky_final) = true ∧ sleep_ms <= clock (sh flaky_final) ∧
     total w_live (threads flaky_final) = 0).
Proof.
  assert (H0 : maxURLs main_config <= max_int) by (vm_compute; discriminate).
  assert (H1 : numWorkers main_config <= max_int) by (vm_compute; discriminate).
  assert (H2 : run (L := SimpleURL.lib) main_config flaky_web flaky_sched init
               = Some flaky_final) by (vm_compute; reflexivity).
  split; [exact H0 |]. split; [exact H1 |]. split; [exact H2 |].
  exact (shutdown_order (L := SimpleURL.lib) main_config flaky_web
           flaky_sched flaky_final H0 H1 H2).
Defined.

Lemma worklist_drained_at_save_witness :
  maxURLs main_config <= max_int ∧ 1 <= numWorkers main_config <= max_int ∧
  run (L := SimpleURL.lib) main_config flaky_web flaky_sched init = Some flaky_final ∧
  saved (sh flaky_final)
  = Some {| TotalPages := 0; SuccessPages := 0; FailedPages := 1; StartURL := books |} ∧
  worklist (sh flaky_final) = [] ∧
  popped_urls (trace (sh flaky_final)) = pushed_urls (trace (sh flaky_final)) ∧
  0 + 1 = tally is_push (trace (sh flaky_final)).
Proof.
  assert (H0 : maxURLs main_config <= max_int) by (vm_compute; discriminate).
  assert (H1 : 1 <= numWorkers main_config <= max_int)
    by (split; vm_compute; discriminate).
  assert (H2 : run (L := SimpleURL.lib) main_config flaky_web flaky_sched init
               = Some flaky_final) by (vm_compute; reflexivity).
  assert (H3 : saved (sh flaky_final)
               = Some {| TotalPages := 0; SuccessPages := 0; FailedPages := 1;
                         StartURL := books |}) by reflexivity.
  split; [exact H0 |]. split; [exact H1 |]. split; [exact H2 |]. split; [exact H3 |].
  exact (worklist_drained_at_save (L := SimpleURL.lib) main_config flaky_web
           flaky_sched flaky_final _ H0 H1 H2 H3).
Defined.

Lemma last_slot_follows_no_links_witness :
  status (sh chain_state) = Running ∧
  threads chain_state !! 8%nat
  = Some (GCrawl (KChild books) page_a (C263 2 [page_b])) ∧
  maxURLs two_pages <= 2 ∧
  run (L := SimpleURL.lib) two_pages chain_web (runs 8 (S (length [page_b]))) chain_state
  = Some {| sh := sh chain_state;
            threads := <[8%nat := crawl_return (KChild books)]> (threads chain_state) |}.
Proof.
  assert (H1 : status (sh chain_state) = Running) by reflexivity.
  assert (H2 : threads chain_state !! 8%nat
               = Some (GCrawl (KChild books) page_a (C263 2 [page_b]))) by reflexivity.
  assert (H3 : maxURLs two_pages <= 2) by (vm_compute; discriminate).
  split; [exact H1 |]. split; [exact H2 |]. split; [exact H3 |].
  exact (last_slot_follows_no_links (L := SimpleURL.lib) two_pages chain_web
           [page_b] chain_state 8 (KChild books) page_a 2 H1 H2 H3).
Defined.

Lemma saved_stats_account_for_pops_witness :
  maxURLs main_config <= max_int ∧
  run (L := SimpleURL.lib) main_config flaky_web flaky_sched init = Some flaky_final ∧
  saved (sh flaky_final)
  = Some {| TotalPages := 0; SuccessPages := 0; FailedPages := 1; StartURL := books |} ∧
  0 + 1 = tally is_pop (trace (sh flaky_final)) ∧
  0 = 0.
Proof.
  assert (H0 : maxURLs main_config <= max_int) by (vm_compute; discriminate).
  assert (H2 : run (L := SimpleURL.lib) main_config flaky_web flaky_sched init
               = Some flaky_final) by (vm_compute; reflexivity).
  assert (H3 : saved (sh flaky_final)
               = Some {| TotalPages := 0; SuccessPages := 0; FailedPages := 1;
                         StartURL := books |}) by reflexivity.
  split; [exact H0 |]. split; [exact H2 |]. split; [exact H3 |].
  exact (saved_stats_account_for_pops (L := SimpleURL.lib) main_config flaky_web
           flaky_sched flaky_final _ H0 H2 H3).
Defined.

Lemma crawl_extractLinks_returns_witness :
  maxURLs two_pages <= max_int ∧
  run (L := SimpleURL.lib) two_pages broken_link_web broken_link_extract init
  = Some broken_link_extract_state ∧
  threads broken_link_extract_state !! 7%nat
  = Some (GCrawl KSeed books (C262 1 [anchor page_a; anchor page_b])) ∧
  ∃ links,
    extractLinks (L := SimpleURL.lib) [anchor page_a; anchor page_b] books
    = Return links.
Proof.
  assert (H0 : maxURLs two_pages <= max_int) by (vm_compute; discriminate).
  assert (H2 : run (L := SimpleURL.lib) two_pages broken_link_web broken_link_extract init
               = Some broken_link_extract_state) by (vm_compute; reflexivity).
  assert (H3 : threads broken_link_extract_state !! 7%nat
               = Some (GCrawl KSeed books (C262 1 [anchor page_a; anchor page_b])))
    by reflexivity.
  split; [exact H0 |]. split; [exact H2 |]. split; [exact H3 |].
  exact (crawl_extractLinks_returns (L := SimpleURL.lib) two_pages broken_link_web
           broken_link_extract broken_link_extract_state 7 KSeed books 1 _ H0 H2 H3).
Defined.

Lemma mutex_locked_iff_inside_witness :
  maxURLs two_pages <= max_int ∧
  run (L := SimpleURL.lib) two_pages broken_link_web broken_link_prefix init
  = Some broken_link_state ∧
  total w_cs (threads broken_link_state) = Z.b2z (mu (sh broken_link_state)) ∧
  (mu (sh broken_link_state) = true ↔
   ∃ i g, threads broken_link_state !! i = Some g ∧ w_cs g = 1).
Proof.
  assert (H0 : maxURLs two_pages <= max_int) by (vm_compute; discriminate).
  assert (H2 : run (L := SimpleURL.lib) two_pages broken_link_web broken_link_prefix init
               = Some broken_link_state) by (vm_compute; reflexivity).
  split; [exact H0 |]. split; [exact H2 |].
  exact (mutex_locked_iff_inside (L := SimpleURL.lib) two_pages broken_link_web
           broken_link_prefix broken_link_state H0 H2).
Defined.

(** ** Start-up *)

Section Startup.
Context {L : NetURL} (web : Web).

(** X21.  [main] as it stands, with its worker count of five (line 366):
    when [initDB] succeeds, the first eighteen steps of [main] start
    five workers, register each on the wait group and start discovery,
    leaving [main] at [<-done]; when [initDB] fails, the first step ends
    the process through [log.Fatal] and no goroutine has been started. *)
Lemma main_starts_five_workers :
  numWorkers main_config = 5 ∧
  run main_config web (if db_ok web then main_startup 5 else [Run 0]) init
  = Some (if db_ok web
          then {| sh := set_wg 5 init_shared;
                  threads := GMain M380 :: replicate 5 (GWorker W336)
                             ++ [GDiscover] |}
          else {| sh := set_status Fatal init_shared;
                  threads := [GMain M354] |}).
Proof.
  split; [reflexivity |]. destruct (db_ok web) eqn:Hdb.
  - change (main_startup 5) with ([Run 0] ++ runs 0 17). rewrite run_app.
    assert (H0 : run main_config web [Run 0] init
                 = Some {| sh := init_shared; threads := [GMain (M368 0)] |}).
    { simpl. unfold step. simpl. by rewrite Hdb. }
    rewrite H0. cbv beta iota. vm_compute. reflexivity.
  - simpl. unfold step. simpl. by rewrite Hdb.
Qed.

End Startup.
